(** * useAdvancedInfiniteScroll: the paginated load controller

    A shallow embedding of [src/ecommerce-app/src/hooks/useAdvancedInfiniteScroll.ts].

    The hook is a bundle of closures over React state cells ([useState]),
    mutable refs ([useRef]) and browser objects (abort controllers, timers,
    an intersection observer).  It is embedded as a state-passing program
    over one [World] record:

    - [st] holds the state cells with every queued [setX] applied, [view] is
      the snapshot of the last render.  The callbacks the hook returns
      ([loadMore], [retry]) close over [view]; refs are read and written in
      place.
    - [signals] is the heap of [AbortController] objects: cell [i] is the
      [aborted] flag of the controller created [i]-th.  A request keeps the
      index of its own signal, so aborting through [abortControllerRef] is
      seen by every closure holding that signal.
    - [await fetchData(page, signal)] parks a [Request] in [inflight]; the
      rest of the function body runs when the environment settles it.
    - [setTimeout] parks a [Callback] in [timers]; the environment fires it.
    - [trace] records the calls that leave the hook: [fetchData],
      [onSuccess], [onError] and [setTimeout].

    The environment drives the hook with [Event]s; one event is one
    JavaScript task.  Rendering is an event of its own, so a statement
    chooses where React commits.  Props are fixed for the life of the
    component except for the identities of [resetDependencies] and of the
    memoised [fetchWithRetry], which a [Render] may declare changed.
    Numbers are integers; [console.log] and unmounting are left out; the
    caller's [onSuccess] and [onError] return normally. *)

From Stdlib Require Import ZArith Bool List String Lia.
From stdpp Require Import base list.
Import ListNotations.

Local Open Scope Z_scope.

(** ** Data *)

(** A JavaScript [Error]: only its message is observable here. *)
Record Error := { message : string }.

(** What a rejected promise carries: an [Error] instance or anything else. *)
Inductive Thrown :=
| ThrownError (e : Error)
| ThrownOther.

(** [err instanceof Error ? err : new Error("An error occurred")] *)
Definition toError (err : Thrown) : Error :=
  match err with
  | ThrownError e => e
  | ThrownOther => {| message := "An error occurred" |}
  end.

(** [{ data: T[]; hasMore: boolean; total?: number }] *)
Record Page (T : Type) := {
  p_data : list T;
  p_hasMore : bool;
  p_total : option Z
}.
Arguments p_data {T}.
Arguments p_hasMore {T}.
Arguments p_total {T}.

Inductive Outcome (T : Type) :=
| Resolved (result : Page T)
| Rejected (err : Thrown).
Arguments Resolved {T}.
Arguments Rejected {T}.

(** The options of the hook, with the defaults of its parameter list. *)
Record Config := {
  initialPage : Z;
  threshold : Z;
  enabled : bool;
  resetDependencies : nat;      (* length of the array *)
  onError : bool;               (* is the callback supplied? *)
  onSuccess : bool;
  debounceMs : Z;
  retryAttempts : Z;
  retryDelay : Z
}.

Definition defaults : Config :=
  {| initialPage := 0; threshold := 300; enabled := true;
     resetDependencies := 0; onError := false; onSuccess := false;
     debounceMs := 200; retryAttempts := 3; retryDelay := 1000 |}.

(** The seven [useState] cells. *)
Record Snapshot (T : Type) := MkSnapshot {
  data : list T;
  loading : bool;
  error : option Error;
  hasMore : bool;
  isRetrying : bool;
  currentPage : Z;
  totalCount : option Z
}.
Arguments MkSnapshot {T}.
Arguments data {T}.
Arguments loading {T}.
Arguments error {T}.
Arguments hasMore {T}.
Arguments isRetrying {T}.
Arguments currentPage {T}.
Arguments totalCount {T}.

(** The [useRef] cells.  [observerRef] holds the page captured by the
    connected intersection observer, [sentinelRef] whether a node is
    attached. *)
Record Refs := MkRefs {
  abortControllerRef : option nat;
  loadingRef : bool;
  hasMoreRef : bool;
  enabledRef : bool;
  retryCountRef : nat;
  debounceTimerRef : option nat;
  observerRef : option Z;
  sentinelRef : bool;
  currentRequestPageRef : option Z;
  isInitialLoadingRef : bool;
  initialLoadRef : bool
}.

(** The suspended rest of one [fetchWithRetry] call, waiting at [await]. *)
Record Request := {
  r_signal : nat;
  r_page : Z;
  r_isInitial : bool;
  r_retryCount : nat
}.

(** The closures handed to [setTimeout]. *)
Inductive Callback :=
| RetryTimer (signal : nat) (page : Z) (isInitial : bool) (retryCount : nat)
| RefreshTimer
| ScrollTimer (capturedPage : Z).

Record Timer := {
  t_id : nat;
  t_delay : Z;
  t_callback : Callback
}.

(** [document.documentElement] as the scroll handler reads it. *)
Record Metrics := {
  scrollTop : Z;
  scrollHeight : Z;
  clientHeight : Z
}.

(** Calls that leave the hook.  [CallFetch] also notes the attempt number
    of the call, which [fetchData] itself does not receive. *)
Inductive Call (T : Type) :=
| CallFetch (page : Z) (signal : nat) (retryCount : nat)
| CallOnSuccess (items : list T) (page : Z)
| CallOnError (e : Error)
| CallSetTimeout (id : nat) (delay : Z).
Arguments CallFetch {T}.
Arguments CallOnSuccess {T}.
Arguments CallOnError {T}.
Arguments CallSetTimeout {T}.

Record World (T : Type) := MkWorld {
  view : Snapshot T;
  st : Snapshot T;
  refs : Refs;
  signals : list bool;
  inflight : list Request;
  timers : list Timer;
  nextTimer : nat;
  mounted : bool;
  document : Metrics;
  trace : list (Call T)
}.
Arguments MkWorld {T}.
Arguments view {T}.
Arguments st {T}.
Arguments refs {T}.
Arguments signals {T}.
Arguments inflight {T}.
Arguments timers {T}.
Arguments nextTimer {T}.
Arguments mounted {T}.
Arguments document {T}.
Arguments trace {T}.

(** ** Writing one cell *)

Definition set_data {T} (x : list T) (s : Snapshot T) : Snapshot T :=
  MkSnapshot x (loading s) (error s) (hasMore s) (isRetrying s)
    (currentPage s) (totalCount s).
Definition set_loading {T} (x : bool) (s : Snapshot T) : Snapshot T :=
  MkSnapshot (data s) x (error s) (hasMore s) (isRetrying s) (currentPage s)
    (totalCount s).
Definition set_error {T} (x : option Error) (s : Snapshot T) : Snapshot T :=
  MkSnapshot (data s) (loading s) x (hasMore s) (isRetrying s)
    (currentPage s) (totalCount s).
Definition set_hasMore {T} (x : bool) (s : Snapshot T) : Snapshot T :=
  MkSnapshot (data s) (loading s) (error s) x (isRetrying s) (currentPage s)
    (totalCount s).
Definition set_isRetrying {T} (x : bool) (s : Snapshot T) : Snapshot T :=
  MkSnapshot (data s) (loading s) (error s) (hasMore s) x (currentPage s)
    (totalCount s).
Definition set_currentPage {T} (x : Z) (s : Snapshot T) : Snapshot T :=
  MkSnapshot (data s) (loading s) (error s) (hasMore s) (isRetrying s) x
    (totalCount s).
Definition set_totalCount {T} (x : option Z) (s : Snapshot T) : Snapshot T :=
  MkSnapshot (data s) (loading s) (error s) (hasMore s) (isRetrying s)
    (currentPage s) x.

Definition set_abortControllerRef (x : option nat) (r : Refs) : Refs :=
  MkRefs x (loadingRef r) (hasMoreRef r) (enabledRef r) (retryCountRef r)
    (debounceTimerRef r) (observerRef r) (sentinelRef r)
    (currentRequestPageRef r) (isInitialLoadingRef r) (initialLoadRef r).
Definition set_loadingRef (x : bool) (r : Refs) : Refs :=
  MkRefs (abortControllerRef r) x (hasMoreRef r) (enabledRef r)
    (retryCountRef r) (debounceTimerRef r) (observerRef r) (sentinelRef r)
    (currentRequestPageRef r) (isInitialLoadingRef r) (initialLoadRef r).
Definition set_hasMoreRef (x : bool) (r : Refs) : Refs :=
  MkRefs (abortControllerRef r) (loadingRef r) x (enabledRef r)
    (retryCountRef r) (debounceTimerRef r) (observerRef r) (sentinelRef r)
    (currentRequestPageRef r) (isInitialLoadingRef r) (initialLoadRef r).
Definition set_enabledRef (x : bool) (r : Refs) : Refs :=
  MkRefs (abortControllerRef r) (loadingRef r) (hasMoreRef r) x
    (retryCountRef r) (debounceTimerRef r) (observerRef r) (sentinelRef r)
    (currentRequestPageRef r) (isInitialLoadingRef r) (initialLoadRef r).
Definition set_retryCountRef (x : nat) (r : Refs) : Refs :=
  MkRefs (abortControllerRef r) (loadingRef r) (hasMoreRef r) (enabledRef r)
    x (debounceTimerRef r) (observerRef r) (sentinelRef r)
    (currentRequestPageRef r) (isInitialLoadingRef r) (initialLoadRef r).
Definition set_debounceTimerRef (x : option nat) (r : Refs) : Refs :=
  MkRefs (abortControllerRef r) (loadingRef r) (hasMoreRef r) (enabledRef r)
    (retryCountRef r) x (observerRef r) (sentinelRef r)
    (currentRequestPageRef r) (isInitialLoadingRef r) (initialLoadRef r).
Definition set_observerRef (x : option Z) (r : Refs) : Refs :=
  MkRefs (abortControllerRef r) (loadingRef r) (hasMoreRef r) (enabledRef r)
    (retryCountRef r) (debounceTimerRef r) x (sentinelRef r)
    (currentRequestPageRef r) (isInitialLoadingRef r) (initialLoadRef r).
Definition set_sentinelRef (x : bool) (r : Refs) : Refs :=
  MkRefs (abortControllerRef r) (loadingRef r) (hasMoreRef r) (enabledRef r)
    (retryCountRef r) (debounceTimerRef r) (observerRef r) x
    (currentRequestPageRef r) (isInitialLoadingRef r) (initialLoadRef r).
Definition set_currentRequestPageRef (x : option Z) (r : Refs) : Refs :=
  MkRefs (abortControllerRef r) (loadingRef r) (hasMoreRef r) (enabledRef r)
    (retryCountRef r) (debounceTimerRef r) (observerRef r) (sentinelRef r) x
    (isInitialLoadingRef r) (initialLoadRef r).
Definition set_isInitialLoadingRef (x : bool) (r : Refs) : Refs :=
  MkRefs (abortControllerRef r) (loadingRef r) (hasMoreRef r) (enabledRef r)
    (retryCountRef r) (debounceTimerRef r) (observerRef r) (sentinelRef r)
    (currentRequestPageRef r) x (initialLoadRef r).
Definition set_initialLoadRef (x : bool) (r : Refs) : Refs :=
  MkRefs (abortControllerRef r) (loadingRef r) (hasMoreRef r) (enabledRef r)
    (retryCountRef r) (debounceTimerRef r) (observerRef r) (sentinelRef r)
    (currentRequestPageRef r) (isInitialLoadingRef r) x.

Definition with_view {T} (x : Snapshot T) (w : World T) : World T :=
  MkWorld x (st w) (refs w) (signals w) (inflight w) (timers w)
    (nextTimer w) (mounted w) (document w) (trace w).
Definition with_st {T} (x : Snapshot T) (w : World T) : World T :=
  MkWorld (view w) x (refs w) (signals w) (inflight w) (timers w)
    (nextTimer w) (mounted w) (document w) (trace w).
Definition with_refs {T} (x : Refs) (w : World T) : World T :=
  MkWorld (view w) (st w) x (signals w) (inflight w) (timers w)
    (nextTimer w) (mounted w) (document w) (trace w).
Definition with_signals {T} (x : list bool) (w : World T) : World T :=
  MkWorld (view w) (st w) (refs w) x (inflight w) (timers w) (nextTimer w)
    (mounted w) (document w) (trace w).
Definition with_inflight {T} (x : list Request) (w : World T) : World T :=
  MkWorld (view w) (st w) (refs w) (signals w) x (timers w) (nextTimer w)
    (mounted w) (document w) (trace w).
Definition with_timers {T} (x : list Timer) (w : World T) : World T :=
  MkWorld (view w) (st w) (refs w) (signals w) (inflight w) x (nextTimer w)
    (mounted w) (document w) (trace w).
Definition with_nextTimer {T} (x : nat) (w : World T) : World T :=
  MkWorld (view w) (st w) (refs w) (signals w) (inflight w) (timers w) x
    (mounted w) (document w) (trace w).
Definition with_mounted {T} (x : bool) (w : World T) : World T :=
  MkWorld (view w) (st w) (refs w) (signals w) (inflight w) (timers w)
    (nextTimer w) x (document w) (trace w).
Definition with_document {T} (x : Metrics) (w : World T) : World T :=
  MkWorld (view w) (st w) (refs w) (signals w) (inflight w) (timers w)
    (nextTimer w) (mounted w) x (trace w).
Definition with_trace {T} (x : list (Call T)) (w : World T) : World T :=
  MkWorld (view w) (st w) (refs w) (signals w) (inflight w) (timers w)
    (nextTimer w) (mounted w) (document w) x.

(** ** Programs over the world *)

Definition Action (T : Type) := World T -> World T.

Definition skip {T} : Action T := fun w => w.
Definition seq {T} (a b : Action T) : Action T := fun w => b (a w).
Definition when {T} (c : bool) (a : Action T) : Action T :=
  if c then a else skip.
Definition bind {T A} (f : World T -> A) (k : A -> Action T) : Action T :=
  fun w => k (f w) w.

Declare Scope action_scope.
Delimit Scope action_scope with act.
Bind Scope action_scope with Action.
Notation "a ;; b" := (seq a b)
  (at level 100, b at level 200, right associativity) : action_scope.
Notation "'let*' x ':=' f 'in' k" := (bind f (fun x => k))
  (at level 10, x name, f at level 200, k at level 200) : action_scope.
Local Open Scope action_scope.

(** [ref.current] and [ref.current = x] *)
Definition current {T A} (cell : Refs -> A) (w : World T) : A := cell (refs w).
Definition assign {T} (f : Refs -> Refs) : Action T :=
  fun w => with_refs (f (refs w)) w.

(** A queued state update: [setX(f)] with an updater function. *)
Definition setState {T} (f : Snapshot T -> Snapshot T) : Action T :=
  fun w => with_st (f (st w)) w.

Definition emit {T} (c : Call T) : Action T :=
  fun w => with_trace (trace w ++ [c]) w.

(** [signal.aborted]; a signal outside the heap does not exist. *)
Definition aborted {T} (signal : nat) (w : World T) : bool :=
  match signals w !! signal with
  | Some b => b
  | None => false
  end.

(** [controller.abort()] *)
Definition abort {T} (signal : nat) : Action T :=
  fun w => with_signals (<[signal := true]> (signals w)) w.

(** [if (abortControllerRef.current) abortControllerRef.current.abort()] *)
Definition abortCurrent {T} : Action T :=
  let* c := current abortControllerRef in
  match c with
  | Some signal => abort signal
  | None => skip
  end.

(** [abortControllerRef.current = new AbortController()], then the body
    with [signal] bound to the new controller's signal. *)
Definition newAbortController {T} (k : nat -> Action T) : Action T :=
  let* heap := signals in
  let signal := length heap in
  (fun w => with_signals (heap ++ [false]) w) ;;
  assign (set_abortControllerRef (Some signal)) ;;
  k signal.

(** [setTimeout(callback, delay)]; the body receives the timer id.  Ids are
    handed out in order starting from [nextTimer]. *)
Definition setTimeout {T} (callback : Callback) (delay : Z)
    (k : nat -> Action T) : Action T :=
  let* id := nextTimer in
  (fun w => with_timers (timers w ++
     [{| t_id := id; t_delay := delay; t_callback := callback |}]) w) ;;
  (fun w => with_nextTimer (S id) w) ;;
  emit (CallSetTimeout id delay) ;;
  k id.

(** [clearTimeout(id)] *)
Definition clearTimeout {T} (id : nat) : Action T :=
  fun w => with_timers
    (List.filter (fun t => negb (Nat.eqb (t_id t) id)) (timers w)) w.

(** Truthiness of a timer handle held in a ref initialised with [null]. *)
Definition truthy (handle : option nat) : bool :=
  match handle with
  | Some id => negb (Nat.eqb id 0)
  | None => false
  end.

(** [ref.current === page] for a ref of type [number | null] *)
Definition is_page (cell : option Z) (page : Z) : bool :=
  match cell with
  | Some q => Z.eqb q page
  | None => false
  end.

Definition is_null {A} (cell : option A) : bool :=
  match cell with
  | Some _ => false
  | None => true
  end.

(** ** The hook *)

Section Hook.

Context {T : Type}.
Variable cfg : Config.

(** The state setters of the component, in the order of the [useState]
    calls. *)
Definition setData (f : list T -> list T) : Action T :=
  setState (fun s => set_data (f (data s)) s).
Definition setLoading (x : bool) : Action T := setState (set_loading x).
Definition setError (x : option Error) : Action T := setState (set_error x).
Definition setHasMore (x : bool) : Action T := setState (set_hasMore x).
Definition setIsRetrying (x : bool) : Action T :=
  setState (set_isRetrying x).
Definition setCurrentPage (x : Z) : Action T := setState (set_currentPage x).
Definition setTotalCount (x : option Z) : Action T :=
  setState (set_totalCount x).

(** [fetchData(page, signal)] is called and its promise awaited: the call
    is recorded and the rest of the body parked. *)
Definition awaitFetchData (page : Z) (signal : nat) (isInitial : bool)
    (retryCount : nat) : Action T :=
  emit (CallFetch page signal retryCount) ;;
  fun w => with_inflight (inflight w ++
    [{| r_signal := signal; r_page := page; r_isInitial := isInitial;
        r_retryCount := retryCount |}]) w.

(** [fetchWithRetry], lines 123-146: the request is recorded, the previous
    controller aborted, a new one made, and [fetchData] called. *)
Definition beginRequest (page : Z) (isInitial : bool) (retryCount : nat)
    : Action T :=
  assign (set_currentRequestPageRef (Some page)) ;;
  when isInitial (assign (set_isInitialLoadingRef true)) ;;
  abortCurrent ;;
  newAbortController (fun signal =>
    setLoading true ;;
    setError None ;;
    when (0 <? retryCount)%nat (setIsRetrying true) ;;
    awaitFetchData page signal isInitial retryCount).

(** [fetchWithRetry], lines 102-121: the three early returns. *)
Definition fetchWithRetry (page : Z) (isInitial : bool) (retryCount : nat)
    : Action T :=
  let* isEnabled := current enabledRef in
  let* isLoading := current loadingRef in
  if negb isEnabled || isLoading then skip else
  let* requested := current currentRequestPageRef in
  if is_page requested page && negb isInitial then skip else
  let* initialLoading := current isInitialLoadingRef in
  if isInitial && initialLoading then skip else
  beginRequest page isInitial retryCount.

(** The [finally] block, lines 193-202. *)
Definition finallyBlock (signal : nat) (isInitial : bool) : Action T :=
  let* gone := aborted signal in
  if gone then skip else
  setLoading false ;;
  assign (set_currentRequestPageRef None) ;;
  when isInitial (assign (set_isInitialLoadingRef false)).

(** The [try] block after the [await], lines 148-169. *)
Definition tryBlock (rq : Request) (result : Page T) : Action T :=
  let* gone := aborted (r_signal rq) in
  if gone then skip else
  setData (fun prevData =>
    if r_isInitial rq then p_data result else prevData ++ p_data result) ;;
  setHasMore (p_hasMore result) ;;
  setCurrentPage (r_page rq) ;;
  match p_total result with
  | Some total => setTotalCount (Some total)
  | None => skip
  end ;;
  assign (set_retryCountRef 0%nat) ;;
  setIsRetrying false ;;
  when (onSuccess cfg) (emit (CallOnSuccess (p_data result) (r_page rq))).

(** The [catch] block, lines 170-192. *)
Definition catchBlock (rq : Request) (err : Thrown) : Action T :=
  let* gone := aborted (r_signal rq) in
  if gone then skip else
  let error := toError err in
  let* gone := aborted (r_signal rq) in
  if (Z.of_nat (r_retryCount rq) <? retryAttempts cfg) && negb gone then
    assign (set_retryCountRef (r_retryCount rq + 1)%nat) ;;
    setTimeout
      (RetryTimer (r_signal rq) (r_page rq) (r_isInitial rq) (r_retryCount rq))
      (retryDelay cfg * 2 ^ Z.of_nat (r_retryCount rq))
      (fun _ => skip)
  else
    setError (Some error) ;;
    setIsRetrying false ;;
    when (onError cfg) (emit (CallOnError error)).

(** [fetchWithRetry] from the [await] on: every exit of [try] and [catch],
    the [return]s included, passes through [finally]. *)
Definition resume (rq : Request) (o : Outcome T) : Action T :=
  match o with
  | Resolved result => tryBlock rq result
  | Rejected err => catchBlock rq err
  end ;;
  finallyBlock (r_signal rq) (r_isInitial rq).

(** The three trigger sources share this test on the refs. *)
Definition mayTrigger (w : World T) : bool :=
  negb (current loadingRef w) && current hasMoreRef w &&
  current enabledRef w && is_null (current currentRequestPageRef w).

(** The callback of the debounce timer, lines 213-228. *)
Definition scrollTimer (capturedPage : Z) : Action T :=
  let* doc := document in
  let* ok := mayTrigger in
  if (scrollHeight doc - threshold cfg <=? scrollTop doc + clientHeight doc)
     && ok
  then fetchWithRetry (capturedPage + 1) false 0
  else skip.

(** [debouncedScrollHandler], lines 208-229, as registered for the render
    whose [currentPage] it captured. *)
Definition debouncedScrollHandler (capturedPage : Z) : Action T :=
  let* handle := current debounceTimerRef in
  match handle with
  | Some id => when (truthy handle) (clearTimeout id)
  | None => skip
  end ;;
  setTimeout (ScrollTimer capturedPage) (debounceMs cfg)
    (fun id => assign (set_debounceTimerRef (Some id))).

(** The intersection observer's callback, lines 236-249. *)
Definition observerCallback (capturedPage : Z) (isIntersecting : bool)
    : Action T :=
  let* ok := mayTrigger in
  if isIntersecting && ok
  then fetchWithRetry (capturedPage + 1) false 0
  else skip.

(** [handleVisibilityChange], lines 280-288. *)
Definition handleVisibilityChange (hidden : bool) : Action T :=
  if hidden then assign (set_enabledRef false)
  else assign (set_enabledRef (enabled cfg)).

(** [loadMore], lines 298-304: [loading], [hasMore] and [currentPage] are
    those of the render that made the callback. *)
Definition loadMore : Action T :=
  let* v := view in
  let* requested := current currentRequestPageRef in
  if negb (loading v) && hasMore v && enabled cfg && is_null requested
  then fetchWithRetry (currentPage v + 1) false 0
  else skip.

(** [retry], lines 306-310. *)
Definition retry : Action T :=
  let* v := view in
  match error v with
  | Some _ => fetchWithRetry (currentPage v) false 0
  | None => skip
  end.

(** [reset], lines 312-337. *)
Definition reset : Action T :=
  abortCurrent ;;
  (let* handle := current debounceTimerRef in
   match handle with
   | Some id => when (truthy handle) (clearTimeout id)
   | None => skip
   end) ;;
  setData (fun _ => []) ;;
  setLoading false ;;
  setError None ;;
  setHasMore true ;;
  setIsRetrying false ;;
  setCurrentPage (initialPage cfg) ;;
  setTotalCount None ;;
  assign (set_retryCountRef 0%nat) ;;
  assign (set_currentRequestPageRef None) ;;
  assign (set_isInitialLoadingRef false) ;;
  assign (set_initialLoadRef false).

(** [refresh], lines 339-345. *)
Definition refresh : Action T :=
  reset ;;
  setTimeout RefreshTimer 0 (fun _ => skip).

(** Running the closure of a timer that came due. *)
Definition runCallback (c : Callback) : Action T :=
  match c with
  | RetryTimer signal page isInitial retryCount =>
      let* gone := aborted signal in
      if gone then skip
      else fetchWithRetry page isInitial (retryCount + 1)
  | RefreshTimer => fetchWithRetry (initialPage cfg) true 0
  | ScrollTimer capturedPage => scrollTimer capturedPage
  end.

(** The initial-load effect, lines 348-355, for the render [v]. *)
Definition initialLoadEffect (v : Snapshot T) : Action T :=
  let* started := current initialLoadRef in
  let* initialLoading := current isInitialLoadingRef in
  if enabled cfg && (length (data v) =? 0)%nat && negb (loading v) &&
     negb started && negb initialLoading
  then
    assign (set_initialLoadRef true) ;;
    fetchWithRetry (initialPage cfg) true 0
  else skip.

(** The observer effect, lines 232-263: the previous observer is
    disconnected by the cleanup, a new one is made if a sentinel is
    attached. *)
Definition observerEffect (v : Snapshot T) : Action T :=
  let* attached := current sentinelRef in
  if attached then assign (set_observerRef (Some (currentPage v)))
  else assign (set_observerRef None).

(** One render and commit.  The state cells are read, then the effects whose
    dependencies differ from the previous render run in the order of their
    declaration.  [depsChanged]: an element of [resetDependencies] changed;
    [fnChanged]: [fetchWithRetry] is a new function (one of [fetchData],
    [onError], [onSuccess] is). *)
Definition render (depsChanged fnChanged : bool) : Action T :=
  let* prev := view in
  let* v := st in
  let* first := fun w => negb (mounted w) in
  (fun w => with_mounted true (with_view v w)) ;;
  when (first || negb (eqb (loading prev) (loading v)))
    (assign (set_loadingRef (loading v))) ;;
  when (first || negb (eqb (hasMore prev) (hasMore v)))
    (assign (set_hasMoreRef (hasMore v))) ;;
  when first (assign (set_enabledRef (enabled cfg))) ;;
  when ((first || depsChanged) && (0 <? resetDependencies cfg)%nat) reset ;;
  when (first || negb (currentPage prev =? currentPage v) || fnChanged)
    (observerEffect v) ;;
  when (first || negb (length (data prev) =? length (data v))%nat ||
        negb (eqb (loading prev) (loading v)) || fnChanged)
    (initialLoadEffect v).

(** ** The environment *)

Inductive Event :=
| Render (depsChanged fnChanged : bool)
| LoadMore
| RetryNow
| ResetNow
| Refresh
| AttachSentinel (attached : bool)
| Intersect (isIntersecting : bool)
| Scroll (doc : Metrics)
| VisibilityChange (hidden : bool)
| Fire (timer : nat)
| Settle (signal : nat) (o : Outcome T).

Definition find_timer (id : nat) (ts : list Timer) : option Timer :=
  List.find (fun t => Nat.eqb (t_id t) id) ts.

Definition find_request (signal : nat) (rs : list Request) : option Request :=
  List.find (fun r => Nat.eqb (r_signal r) signal) rs.

Definition step (ev : Event) : Action T :=
  match ev with
  | Render depsChanged fnChanged => render depsChanged fnChanged
  | LoadMore => loadMore
  | RetryNow => retry
  | ResetNow => reset
  | Refresh => refresh
  | AttachSentinel attached => assign (set_sentinelRef attached)
  | Intersect isIntersecting =>
      let* observer := current observerRef in
      match observer with
      | Some capturedPage => observerCallback capturedPage isIntersecting
      | None => skip
      end
  | Scroll doc =>
      (fun w => with_document doc w) ;;
      let* isMounted := mounted in
      let* v := view in
      when (isMounted && enabled cfg) (debouncedScrollHandler (currentPage v))
  | VisibilityChange hidden =>
      let* isMounted := mounted in
      when isMounted (handleVisibilityChange hidden)
  | Fire id =>
      let* ts := timers in
      match find_timer id ts with
      | Some t => clearTimeout id ;; runCallback (t_callback t)
      | None => skip
      end
  | Settle signal o =>
      let* rs := inflight in
      match find_request signal rs with
      | Some rq =>
          (fun w => with_inflight
             (List.filter (fun r => negb (Nat.eqb (r_signal r) signal)) rs) w) ;;
          resume rq o
      | None => skip
      end
  end.

Fixpoint run (evs : list Event) : Action T :=
  match evs with
  | [] => skip
  | ev :: rest => step ev ;; run rest
  end.

(** The state of the first render of the component: the initial values of
    the [useState] and [useRef] calls, lines 47-66. *)
Definition initialSnapshot : Snapshot T :=
  MkSnapshot [] false None true false (initialPage cfg) None.

Definition initialRefs : Refs :=
  MkRefs None false true (enabled cfg) 0%nat None None false None false false.

Definition initialWorld : World T :=
  MkWorld initialSnapshot initialSnapshot initialRefs [] [] [] 1%nat false
    {| scrollTop := 0; scrollHeight := 0; clientHeight := 0 |} [].

End Hook.

Arguments Render {T}.
Arguments LoadMore {T}.
Arguments RetryNow {T}.
Arguments ResetNow {T}.
Arguments Refresh {T}.
Arguments AttachSentinel {T}.
Arguments Intersect {T}.
Arguments Scroll {T}.
Arguments VisibilityChange {T}.
Arguments Fire {T}.

(** ** Worlds the hook can be in *)

Section Shapes.

Context {T : Type}.
Variable cfg : Config.

(** The signal a parked timer closure holds, if any. *)
Definition callback_signal (c : Callback) : option nat :=
  match c with
  | RetryTimer signal _ _ _ => Some signal
  | RefreshTimer => None
  | ScrollTimer _ => None
  end.

(** A signal held by a closure is in the heap, and unless it has been
    aborted it is the one [abortControllerRef] points to: at most one token
    is live. *)
Definition owned (w : World T) (signal : nat) : Prop :=
  (signal < length (signals w))%nat /\
  (aborted signal w = false -> current abortControllerRef w = Some signal).

Record wellFormed (w : World T) : Prop := {
  wf_controller : forall c,
    current abortControllerRef w = Some c -> (c < length (signals w))%nat;
  wf_inflight : Forall (fun r => owned w (r_signal r)) (inflight w);
  wf_distinct : NoDup (map r_signal (inflight w));
  wf_retry : Forall (fun t => forall signal,
    callback_signal (t_callback t) = Some signal -> owned w signal) (timers w);
  wf_timers : Forall (fun t => (0 < t_id t < nextTimer w)%nat) (timers w);
  wf_nextTimer : (0 < nextTimer w)%nat;
  wf_debounce : forall id,
    current debounceTimerRef w = Some id -> (0 < id < nextTimer w)%nat;
  wf_sync : mounted w = true -> current loadingRef w = loading (view w)
}.

(** The three early returns of [fetchWithRetry] are not taken. *)
Definition passes (page : Z) (isInitial : bool) (w : World T) : Prop :=
  current enabledRef w = true /\
  current loadingRef w = false /\
  is_page (current currentRequestPageRef w) page && negb isInitial = false /\
  isInitial && current isInitialLoadingRef w = false.

(** A mounted, visible component whose one-shot initial load has been
    started, with nothing rendered as loading. *)
Record idle (w : World T) : Prop := {
  idle_wf : wellFormed w;
  idle_mounted : mounted w = true;
  idle_latch : current initialLoadRef w = true;
  idle_view : loading (view w) = false
}.

(** The request [rq] is parked at its [await], holding the live signal; the
    state cells are those of [s] with [loading] set and [error] cleared, and
    the next timer will be [id]. *)
Record awaiting (rq : Request) (id : nat) (s : Snapshot T)
    (rqs : list Request) (tms : list Timer) (tr : list (Call T))
    (w : World T) : Prop := {
  aw_mounted : mounted w = true;
  aw_enabled : current enabledRef w = true;
  aw_heap : length (signals w) = S (r_signal rq);
  aw_live : aborted (r_signal rq) w = false;
  aw_controller : current abortControllerRef w = Some (r_signal rq);
  aw_inflight : inflight w = rqs ++ [rq];
  aw_older : Forall (fun r => (r_signal r < r_signal rq)%nat) rqs;
  aw_timers : timers w = tms;
  aw_timer_ids : Forall (fun t => (t_id t < id)%nat) tms;
  aw_nextTimer : nextTimer w = id;
  aw_sync : current loadingRef w = loading (view w);
  aw_st : st w = set_error None (set_loading true s);
  aw_trace : trace w = tr
}.

(** The attempt of [rq] has failed and its retry timer [id] is pending. *)
Record backingOff (rq : Request) (id : nat) (s : Snapshot T)
    (rqs : list Request) (tms : list Timer) (tr : list (Call T))
    (w : World T) : Prop := {
  bo_mounted : mounted w = true;
  bo_enabled : current enabledRef w = true;
  bo_latch : current initialLoadRef w = true;
  bo_heap : length (signals w) = S (r_signal rq);
  bo_live : aborted (r_signal rq) w = false;
  bo_controller : current abortControllerRef w = Some (r_signal rq);
  bo_inflight : inflight w = rqs;
  bo_older : Forall (fun r => (r_signal r < r_signal rq)%nat) rqs;
  bo_timers : timers w = tms ++
    [{| t_id := id;
        t_delay := retryDelay cfg * 2 ^ Z.of_nat (r_retryCount rq);
        t_callback := RetryTimer (r_signal rq) (r_page rq) (r_isInitial rq)
                        (r_retryCount rq) |}];
  bo_timer_ids : Forall (fun t => (t_id t < id)%nat) tms;
  bo_nextTimer : nextTimer w = S id;
  bo_sync : current loadingRef w = loading (view w);
  bo_marker : current currentRequestPageRef w = None;
  bo_initial : r_isInitial rq = true -> current isInitialLoadingRef w = false;
  bo_st : st w = set_error None (set_loading false s);
  bo_trace : trace w = tr
}.

(** A failed attempt that is retried: commit, rejection, commit, timer. *)
Definition retryRound (fn : bool) (signal timer : nat) (err : Thrown)
    : list (Event (T:=T)) :=
  [Render false fn; Settle signal (Rejected err); Render false fn; Fire timer].

(** The attempt that ends the chain: commit, settlement, commit. *)
Definition lastRound (fn : bool) (signal : nat) (o : Outcome T)
    : list (Event (T:=T)) :=
  [Render false fn; Settle signal o; Render false fn].

End Shapes.

(** ** Auxiliary definitions for the statements *)

(** The heap after [abortControllerRef.current?.abort()]. *)
Definition abortIn (c : option nat) (heap : list bool) : list bool :=
  match c with
  | Some signal => <[signal := true]> heap
  | None => heap
  end.

(** The action leaves the observation [f] of the world as it was. *)
Definition keeps {T A} (f : World T -> A) (a : Action T) : Prop :=
  forall w, f (a w) = f w.

(** The total the state cells will show at the next render. *)
Definition totalOf {T} (w : World T) : option Z := totalCount (st w).

(** Does the event call [reset]?  Directly, through [refresh], or through
    the effect on [resetDependencies] (on mount and when they changed). *)
Definition callsReset {T} (cfg : Config) (ev : Event (T:=T)) (w : World T)
    : bool :=
  match ev with
  | ResetNow => true
  | Refresh => true
  | Render depsChanged _ =>
      (negb (mounted w) || depsChanged) && (0 <? resetDependencies cfg)%nat
  | _ => false
  end.

(** The timers left after [reset] cleared the debounce timer. *)
Definition afterClear {T} (w : World T) : list Timer :=
  match current debounceTimerRef w with
  | Some id =>
      if truthy (Some id)
      then List.filter (fun t => negb (Nat.eqb (t_id t) id)) (timers w)
      else timers w
  | None => timers w
  end.

(** ** Concrete components, used to exercise the statements *)

(** The options [App.tsx] passes. *)
Definition appConfig : Config :=
  {| initialPage := 0; threshold := 300; enabled := true;
     resetDependencies := 2; onError := true; onSuccess := true;
     debounceMs := 300; retryAttempts := 3; retryDelay := 1000 |}.

(** The same with two automatic retries. *)
Definition twoRetries : Config :=
  {| initialPage := 0; threshold := 300; enabled := true;
     resetDependencies := 2; onError := true; onSuccess := true;
     debounceMs := 300; retryAttempts := 2; retryDelay := 1000 |}.

Definition networkDown : Thrown :=
  ThrownError {| message := "Failed to fetch" |}.

Definition firstPage : Page nat :=
  {| p_data := [1; 2; 3]%nat; p_hasMore := true; p_total := Some 30 |}.

Definition secondPage : Page nat :=
  {| p_data := [4; 5; 6]%nat; p_hasMore := true; p_total := None |}.

(** Mounted with the sentinel attached: the initial load of page 0 is in
    flight and rendered as loading. *)
Definition startingWorld (cfg : Config) : World nat :=
  run cfg [AttachSentinel true; Render false true; Render false true]
    (initialWorld cfg).

(** Page 0 has arrived and is on screen. *)
Definition browsingWorld (cfg : Config) : World nat :=
  run cfg [Settle 0%nat (Resolved firstPage); Render false true]
    (startingWorld cfg).

(** The user asked for page 1 and it is in flight. *)
Definition loadingMoreWorld (cfg : Config) : World nat :=
  run cfg [LoadMore; Render false true] (browsingWorld cfg).

(** Page 1 has failed for good under [twoRetries]: the error is on screen. *)
Definition failedWorld : World nat :=
  run twoRetries
    (retryRound true 1%nat 1%nat networkDown ++
     retryRound true 2%nat 2%nat networkDown ++
     lastRound true 3%nat (Rejected networkDown))
    (run twoRetries [LoadMore] (browsingWorld twoRetries)).

(** ** The statements that do not hold, as written *)

(** After an attempt of page [p] failed and was rescheduled, the component
    still shows as loading and the in-flight marker still names [p]. *)
Definition busyDuringBackoff {T} (cfg : Config) (w : World T) (signal : nat)
    (err : Thrown) (p : Z) : Prop :=
  let w' := run cfg [Settle signal (Rejected err); Render false false] w in
  loading (view w') = true /\ current currentRequestPageRef w' = Some p.

(** The number of [fetchData] calls made so far. *)
Definition fetches {T} (w : World T) : nat :=
  length (List.filter
    (fun c => match c with CallFetch _ _ _ => true | _ => false end)
    (trace w)).

(** [retry()] fetches page [p] again as an append load, attempt 0. *)
Definition retryRefetches {T} (cfg : Config) (w : World T) (p : Z) : Prop :=
  trace (step cfg RetryNow w) =
  trace w ++ [CallFetch p (length (signals w)) 0].

(** With the error on screen, nothing but [retry()] starts a fetch. *)
Definition noAutoResume {T} (cfg : Config) (w : World T) : Prop :=
  forall ev : Event (T:=T),
    ev <> RetryNow -> fetches (step cfg ev w) = fetches w.

(** The initial load has failed for good under [twoRetries]. *)
Definition failedInitialWorld : World nat :=
  run twoRetries
    (retryRound true 0%nat 1%nat networkDown ++
     retryRound true 1%nat 2%nat networkDown ++
     lastRound true 2%nat (Rejected networkDown))
    (startingWorld twoRetries).

(** While page 1 is in flight the search term changes: [reset] runs as an
    effect and the next commit starts the initial load again. *)
Definition supersededWorld : World nat :=
  run appConfig [Render true true; Render false true]
    (loadingMoreWorld appConfig).

(** The action takes well-formed worlds to well-formed worlds. *)
Definition preserves {T} (a : Action T) : Prop :=
  forall w, wellFormed w -> wellFormed (a w).

(** The action keeps the property [I] of the world. *)
Definition stable {T} (I : World T -> Prop) (a : Action T) : Prop :=
  forall w, I w -> I (a w).

(** The component cannot start a request and has made [n] fetches. *)
Definition paused {T} (n : nat) (w : World T) : Prop :=
  current enabledRef w = false /\ fetches w = n.

(** The delays of the timers set so far. *)
Definition timeouts {T} (w : World T) : list Z :=
  flat_map (fun c => match c with CallSetTimeout _ delay => [delay] | _ => [] end)
    (trace w).

(** The rounds of a load whose attempts fail with [errs], one after the
    other, each followed by its retry timer. *)
Fixpoint retryRounds {T} (fn : bool) (signal timer : nat) (errs : list Thrown)
    : list (Event (T:=T)) :=
  match errs with
  | [] => []
  | err :: rest =>
      retryRound fn signal timer err ++ retryRounds fn (S signal) (S timer) rest
  end.

(** The options of a hook that its caller switched off. *)
Definition disabledConfig : Config :=
  {| initialPage := 0; threshold := 300; enabled := false;
     resetDependencies := 0; onError := true; onSuccess := true;
     debounceMs := 200; retryAttempts := 3; retryDelay := 1000 |}.

(** The first attempt of the initial load has failed; the retry timer of
    1000 is pending and the failure is rendered. *)
Definition backoffWorld : World nat :=
  run appConfig [Settle 0%nat (Rejected networkDown); Render false true]
    (startingWorld appConfig).

(** The last page of the catalogue. *)
Definition lastPage : Page nat :=
  {| p_data := [7; 8]%nat; p_hasMore := false; p_total := Some 8 |}.

(** The document scrolled to its end. *)
Definition atBottom : Metrics :=
  {| scrollTop := 1400; scrollHeight := 2000; clientHeight := 600 |}.

(** Page 0 is on screen and the user has scrolled to the end: the debounce
    timer is pending. *)
Definition scrolledWorld : World nat :=
  run appConfig [Scroll atBottom] (browsingWorld appConfig).

(** The two triggers that run in the caller's task: the manual one and the
    intersection observer. *)
Definition isTrigger {T} (ev : Event (T:=T)) : bool :=
  match ev with
  | LoadMore => true
  | Intersect _ => true
  | _ => false
  end.

(** The scroll position is within [threshold] of the end of the page. *)
Definition nearEnd (cfg : Config) (doc : Metrics) : bool :=
  scrollHeight doc - threshold cfg <=? scrollTop doc + clientHeight doc.

(** The user keeps asking for the next page and every page arrives:
    [loadMore()], commit, settlement, commit, page after page. *)
Fixpoint browse {T} (fn : bool) (signal : nat) (pages : list (Page T))
    : list (Event (T:=T)) :=
  match pages with
  | [] => []
  | page :: rest =>
      [LoadMore; Render false fn; Settle signal (Resolved page);
       Render false fn] ++ browse fn (S signal) rest
  end.

(** An idle, visible component with nothing in flight. *)
Record ready {T} (w : World T) : Prop := {
  ready_idle : idle w;
  ready_enabled : current enabledRef w = true;
  ready_marker : current currentRequestPageRef w = None;
  ready_rendered : st w = view w
}.

(** The pages [fetchData] was asked for, in order. *)
Definition requested {T} (w : World T) : list Z :=
  flat_map (fun c => match c with CallFetch page _ _ => [page] | _ => [] end)
    (trace w).

(** ** App.tsx *)

(** [const limit = 6] in [fetchProducts]. *)
Definition limit : Z := 6.

(** [type ApiResponse] *)
Record ApiResponse (T : Type) := {
  a_products : list T;
  a_total : Z;
  a_skip : Z;
  a_limit : Z
}.
Arguments a_products {T}.
Arguments a_total {T}.
Arguments a_skip {T}.
Arguments a_limit {T}.

(** The three URLs of [fetchProducts], lines 50-60, by their parts. *)
Inductive Endpoint :=
| AllProducts (limit skip : Z)
| SearchProducts (q : string) (limit skip : Z)
| CategoryProducts (category : string) (limit skip : Z).

(** Truthiness of a JavaScript string. *)
Definition nonEmpty (s : string) : bool := negb (String.eqb s EmptyString).

(** [fetchProducts], lines 46-60: the URL for a page. *)
Definition endpoint (searchQuery selectedCategory : string) (page : Z)
    : Endpoint :=
  let skip := page * limit in
  if nonEmpty searchQuery then SearchProducts searchQuery limit skip
  else if nonEmpty selectedCategory
       then CategoryProducts selectedCategory limit skip
       else AllProducts limit skip.

(** [fetchProducts], lines 67-73: the page made from an OK response. *)
Definition fetchProducts {T} (page : Z) (response : ApiResponse T) : Page T :=
  let skip := page * limit in
  {| p_data := a_products response;
     p_hasMore := (Z.of_nat (length (a_products response)) =? limit) &&
                  (skip + limit <? a_total response);
     p_total := Some (a_total response) |}.

(** The state of [App]: the two [useState] cells. *)
Record AppState := {
  searchInput : string;
  selectedCategory : string
}.

Inductive AppAction :=
| HandleSearch (query : string)
| HandleCategoryChange (category : string)
| HandleRefresh.

(** [handleSearch], [handleCategoryChange] and [handleRefresh],
    lines 108-122, on the cells of [App]. *)
Definition handle (a : AppAction) (s : AppState) : AppState :=
  match a with
  | HandleSearch query =>
      {| searchInput := query; selectedCategory := EmptyString |}
  | HandleCategoryChange category =>
      {| searchInput := EmptyString; selectedCategory := category |}
  | HandleRefresh => {| searchInput := EmptyString; selectedCategory := EmptyString |}
  end.

Definition initialApp : AppState :=
  {| searchInput := EmptyString; selectedCategory := EmptyString |}.

(** The conditions under which [App] renders each panel, lines 183-243,
    from the snapshot the hook returned. *)
Definition showsEmptyState {T} (v : Snapshot T) : bool :=
  negb (loading v) && (length (data v) =? 0)%nat && is_null (error v).
Definition showsErrorState {T} (v : Snapshot T) : bool :=
  negb (is_null (error v)) && negb (loading v).
Definition showsGrid {T} (v : Snapshot T) : bool :=
  (0 <? length (data v))%nat.
Definition showsInitialSkeleton {T} (v : Snapshot T) : bool :=
  loading v && (length (data v) =? 0)%nat.
Definition showsLoadMoreSpinner {T} (v : Snapshot T) : bool :=
  loading v && (0 <? length (data v))%nat.
Definition showsEndOfList {T} (v : Snapshot T) : bool :=
  negb (hasMore v) && (0 <? length (data v))%nat && negb (loading v).

(** The answer of the server for page 1 of a catalogue of 30 items. *)
Definition secondResponse : ApiResponse nat :=
  {| a_products := [7; 8; 9; 10; 11; 12]%nat; a_total := 30; a_skip := 6;
     a_limit := 6 |}.

(** * Properties *)

(** ** Symbolic execution *)

Ltac open_world w :=
  destruct w as
    [[vData vLoading vError vHasMore vIsRetrying vCurrentPage vTotalCount]
     [sData sLoading sError sHasMore sIsRetrying sCurrentPage sTotalCount]
     [rController rLoading rHasMore rEnabled rRetryCount rDebounce rObserver
      rSentinel rRequestPage rInitialLoading rInitialLoad]
     heap parked pending timerId isMounted doc calls].

Ltac unfold_actions :=
  unfold step, refresh, reset, retry, loadMore, observerCallback,
    debouncedScrollHandler, handleVisibilityChange, runCallback, scrollTimer,
    mayTrigger, render, initialLoadEffect, observerEffect,
    resume, catchBlock, tryBlock, finallyBlock,
    fetchWithRetry, beginRequest, newAbortController, awaitFetchData,
    abortCurrent, abort, setTimeout, clearTimeout,
    setData, setLoading, setError, setHasMore, setIsRetrying, setCurrentPage,
    setTotalCount, setState, assign, emit, when, seq, bind, skip, current,
    aborted in *.

Ltac calm :=
  cbv beta iota zeta delta
    [view st refs signals inflight timers nextTimer mounted document trace
     data loading error hasMore isRetrying currentPage totalCount
     abortControllerRef loadingRef hasMoreRef enabledRef retryCountRef
     debounceTimerRef observerRef sentinelRef currentRequestPageRef
     isInitialLoadingRef initialLoadRef
     r_signal r_page r_isInitial r_retryCount t_id t_delay t_callback
     p_data p_hasMore p_total
     with_view with_st with_refs with_signals with_inflight with_timers
     with_nextTimer with_mounted with_document with_trace
     set_data set_loading set_error set_hasMore set_isRetrying
     set_currentPage set_totalCount
     set_abortControllerRef set_loadingRef set_hasMoreRef set_enabledRef
     set_retryCountRef set_debounceTimerRef set_observerRef set_sentinelRef
     set_currentRequestPageRef set_isInitialLoadingRef set_initialLoadRef
     id negb andb orb abortIn is_null callback_signal initialSnapshot] in *.

Ltac tidy :=
  cbn beta iota zeta delta
    [view st refs signals inflight timers nextTimer mounted document trace
     data loading error hasMore isRetrying currentPage totalCount
     abortControllerRef loadingRef hasMoreRef enabledRef retryCountRef
     debounceTimerRef observerRef sentinelRef currentRequestPageRef
     isInitialLoadingRef initialLoadRef
     r_signal r_page r_isInitial r_retryCount t_id t_delay t_callback
     p_data p_hasMore p_total
     with_view with_st with_refs with_signals with_inflight with_timers
     with_nextTimer with_mounted with_document with_trace
     set_data set_loading set_error set_hasMore set_isRetrying
     set_currentPage set_totalCount
     set_abortControllerRef set_loadingRef set_hasMoreRef set_enabledRef
     set_retryCountRef set_debounceTimerRef set_observerRef set_sentinelRef
     set_currentRequestPageRef set_isInitialLoadingRef set_initialLoadRef
     id negb andb orb abortIn is_null callback_signal initialSnapshot] in *.

Section Execution.

Context {T : Type}.
Variable cfg : Config.

Lemma fetchWithRetry_passes p i n (w : World T) :
  passes p i w -> fetchWithRetry p i n w = beginRequest p i n w.
Proof.
  intros (He & Hl & Hp & Hi). unfold fetchWithRetry, bind.
  rewrite He, Hl. cbn. rewrite Hp, Hi. reflexivity.
Qed.

Lemma fetchWithRetry_returns p i n (w : World T) :
  negb (current enabledRef w) || current loadingRef w = true \/
  is_page (current currentRequestPageRef w) p && negb i = true \/
  i && current isInitialLoadingRef w = true ->
  fetchWithRetry p i n w = w.
Proof.
  unfold fetchWithRetry, bind, skip. intros [H | [H | H]].
  - now rewrite H.
  - destruct (negb _ || _); [reflexivity | now rewrite H].
  - destruct (negb _ || _); [reflexivity |].
    destruct (is_page _ _ && _); [reflexivity | now rewrite H].
Qed.

Lemma beginRequest_eq p i n (w : World T) :
  beginRequest p i n w =
  MkWorld (view w)
    ((if (0 <? n)%nat then set_isRetrying true else id)
       (set_error None (set_loading true (st w))))
    (set_abortControllerRef (Some (length (signals w)))
       ((if i then set_isInitialLoadingRef true else id)
          (set_currentRequestPageRef (Some p) (refs w))))
    (abortIn (current abortControllerRef w) (signals w) ++ [false])
    (inflight w ++ [{| r_signal := length (signals w); r_page := p;
                       r_isInitial := i; r_retryCount := n |}])
    (timers w) (nextTimer w) (mounted w) (document w)
    (trace w ++ [CallFetch p (length (signals w)) n]).
Proof.
  open_world w. unfold_actions.
  destruct i, n, rController; calm; try reflexivity.
  all: rewrite length_insert; reflexivity.
Qed.

Lemma resume_aborted rq o (w : World T) :
  aborted (r_signal rq) w = true -> resume cfg rq o w = w.
Proof.
  intros Ha. open_world w. destruct rq as [s p i n].
  unfold_actions.
  destruct o; calm; repeat (rewrite Ha; calm); reflexivity.
Qed.

Lemma resume_retry rq err (w : World T) :
  aborted (r_signal rq) w = false ->
  Z.of_nat (r_retryCount rq) < retryAttempts cfg ->
  resume cfg rq (Rejected err) w =
  MkWorld (view w) (set_loading false (st w))
    ((if r_isInitial rq then set_isInitialLoadingRef false else id)
       (set_currentRequestPageRef None
          (set_retryCountRef (r_retryCount rq + 1) (refs w))))
    (signals w) (inflight w)
    (timers w ++
       [{| t_id := nextTimer w;
           t_delay := retryDelay cfg * 2 ^ Z.of_nat (r_retryCount rq);
           t_callback := RetryTimer (r_signal rq) (r_page rq) (r_isInitial rq)
                           (r_retryCount rq) |}])
    (S (nextTimer w)) (mounted w) (document w)
    (trace w ++ [CallSetTimeout (nextTimer w)
                   (retryDelay cfg * 2 ^ Z.of_nat (r_retryCount rq))]).
Proof.
  intros Ha Hn. apply Z.ltb_lt in Hn.
  open_world w. destruct rq as [s p i n]. unfold_actions. calm.
  rewrite Ha; calm. rewrite Hn, Ha; calm.
  destruct i; repeat (rewrite Ha; calm); reflexivity.
Qed.

Lemma resume_exhausted rq err (w : World T) :
  aborted (r_signal rq) w = false ->
  retryAttempts cfg <= Z.of_nat (r_retryCount rq) ->
  resume cfg rq (Rejected err) w =
  MkWorld (view w)
    (set_loading false
       (set_isRetrying false (set_error (Some (toError err)) (st w))))
    ((if r_isInitial rq then set_isInitialLoadingRef false else id)
       (set_currentRequestPageRef None (refs w)))
    (signals w) (inflight w) (timers w) (nextTimer w) (mounted w)
    (document w)
    (trace w ++ if onError cfg then [CallOnError (toError err)] else []).
Proof.
  intros Ha Hn. apply Z.ltb_ge in Hn.
  open_world w. destruct rq as [s p i n]. unfold_actions. calm.
  rewrite Ha; calm. rewrite Hn; calm.
  destruct (onError cfg), i; calm; repeat (rewrite Ha; calm);
    rewrite ?app_nil_r; reflexivity.
Qed.

Lemma resume_resolved rq result (w : World T) :
  aborted (r_signal rq) w = false ->
  resume cfg rq (Resolved result) w =
  MkWorld (view w)
    (MkSnapshot
       (if r_isInitial rq then p_data result
        else data (st w) ++ p_data result)
       false (error (st w)) (p_hasMore result) false (r_page rq)
       (match p_total result with
        | Some total => Some total
        | None => totalCount (st w)
        end))
    ((if r_isInitial rq then set_isInitialLoadingRef false else id)
       (set_currentRequestPageRef None (set_retryCountRef 0 (refs w))))
    (signals w) (inflight w) (timers w) (nextTimer w) (mounted w)
    (document w)
    (trace w ++
       if onSuccess cfg then [CallOnSuccess (p_data result) (r_page rq)]
       else []).
Proof.
  intros Ha. open_world w. destruct rq as [s p i n], result as [d h t].
  unfold_actions. calm.
  rewrite Ha; calm.
  destruct t, (onSuccess cfg), i; repeat (rewrite Ha; calm);
    rewrite ?app_nil_r; reflexivity.
Qed.

Lemma reset_eq (w : World T) :
  reset cfg w =
  MkWorld (view w) (initialSnapshot cfg)
    (set_initialLoadRef false
       (set_isInitialLoadingRef false
          (set_currentRequestPageRef None
             (set_retryCountRef 0 (refs w)))))
    (abortIn (current abortControllerRef w) (signals w))
    (inflight w)
    (match current debounceTimerRef w with
     | Some id =>
         if truthy (Some id)
         then List.filter (fun t => negb (Nat.eqb (t_id t) id)) (timers w)
         else timers w
     | None => timers w
     end)
    (nextTimer w) (mounted w) (document w) (trace w).
Proof.
  open_world w. unfold_actions.
  destruct rController, rDebounce as [[|id]|]; reflexivity.
Qed.

End Execution.

(** ** Lists of parked closures *)

Lemma find_last {A} (f : A -> bool) (l : list A) (x : A) :
  Forall (fun y => f y = false) l -> f x = true ->
  List.find f (l ++ [x]) = Some x.
Proof.
  intros Hl Hx. induction Hl as [|y l Hy _ IH]; simpl.
  - now rewrite Hx.
  - now rewrite Hy.
Qed.

Lemma filter_last {A} (f : A -> bool) (l : list A) (x : A) :
  Forall (fun y => f y = false) l -> f x = true ->
  List.filter (fun y => negb (f y)) (l ++ [x]) = l.
Proof.
  intros Hl Hx. induction Hl as [|y l Hy _ IH]; simpl.
  - now rewrite Hx.
  - rewrite Hy. simpl. now rewrite IH.
Qed.

Lemma older_requests (signal : nat) (rqs : list Request) :
  Forall (fun r => (r_signal r < signal)%nat) rqs ->
  Forall (fun r => Nat.eqb (r_signal r) signal = false) rqs.
Proof.
  apply List.Forall_impl. intros r Hr. apply Nat.eqb_neq. lia.
Qed.

Lemma older_timers (id : nat) (tms : list Timer) :
  Forall (fun t => (t_id t < id)%nat) tms ->
  Forall (fun t => Nat.eqb (t_id t) id = false) tms.
Proof.
  apply List.Forall_impl. intros t Ht. apply Nat.eqb_neq. lia.
Qed.

Lemma lookup_new (heap : list bool) (c : option nat) :
  (abortIn c heap ++ [false]) !! length heap = Some false.
Proof.
  assert (Hlen : length (abortIn c heap) = length heap).
  { destruct c; simpl; [apply length_insert | reflexivity]. }
  rewrite lookup_app_r by lia. rewrite Hlen, Nat.sub_diag. reflexivity.
Qed.

Lemma length_abortIn (heap : list bool) (c : option nat) :
  length (abortIn c heap) = length heap.
Proof. destruct c; simpl; [apply length_insert | reflexivity]. Qed.

Lemma snoc2 {A} (l : list A) (a b : A) : l ++ [a; b] = (l ++ [a]) ++ [b].
Proof. now rewrite <- List.app_assoc. Qed.

(** ** One load, attempt by attempt *)

Section Chain.

Context {T : Type}.
Variable cfg : Config.

Lemma settle_parked (signal : nat) (o : Outcome T) (rq : Request)
    (rqs : list Request) (w : World T) :
  inflight w = rqs ++ [rq] -> r_signal rq = signal ->
  Forall (fun r => (r_signal r < signal)%nat) rqs ->
  step cfg (Settle signal o) w = resume cfg rq o (with_inflight rqs w).
Proof.
  intros Hin Hs Hold. apply older_requests in Hold.
  unfold step, bind, seq. rewrite Hin.
  unfold find_request.
  rewrite (find_last (fun r => Nat.eqb (r_signal r) signal) rqs rq Hold)
    by (now apply Nat.eqb_eq).
  rewrite (filter_last (fun r => Nat.eqb (r_signal r) signal) rqs rq Hold)
    by (now apply Nat.eqb_eq).
  reflexivity.
Qed.

Lemma fire_parked (id : nat) (t : Timer) (tms : list Timer) (w : World T) :
  timers w = tms ++ [t] -> t_id t = id ->
  Forall (fun t' => (t_id t' < id)%nat) tms ->
  step cfg (Fire id) w = runCallback cfg (t_callback t) (with_timers tms w).
Proof.
  intros Hin Hs Hold. apply older_timers in Hold.
  unfold step, bind, seq, clearTimeout. rewrite Hin.
  unfold find_timer.
  rewrite (find_last (fun t' => Nat.eqb (t_id t') id) tms t Hold)
    by (now apply Nat.eqb_eq).
  cbv beta iota. rewrite Hin.
  rewrite (filter_last (fun t' => Nat.eqb (t_id t') id) tms t Hold)
    by (now apply Nat.eqb_eq).
  reflexivity.
Qed.

Lemma begin_awaiting p i n (w : World T) :
  mounted w = true -> current enabledRef w = true ->
  current loadingRef w = loading (view w) ->
  Forall (fun r => (r_signal r < length (signals w))%nat) (inflight w) ->
  Forall (fun t => (t_id t < nextTimer w)%nat) (timers w) ->
  awaiting
    {| r_signal := length (signals w); r_page := p; r_isInitial := i;
       r_retryCount := n |}
    (nextTimer w)
    ((if (0 <? n)%nat then set_isRetrying true else id) (st w))
    (inflight w) (timers w)
    (trace w ++ [CallFetch p (length (signals w)) n])
    (beginRequest p i n w).
Proof.
  intros Hm He Hsync Hin Htm. rewrite beginRequest_eq.
  unfold current in *.
  destruct i; constructor; unfold current, aborted; tidy; trivial.
  all: try (now rewrite length_app, length_abortIn, Nat.add_1_r).
  all: try (now rewrite lookup_new).
  all: now destruct n.
Qed.

Lemma begin_awaiting_at p i signal id s rqs tms tr (w : World T) :
  mounted w = true -> current enabledRef w = true ->
  current loadingRef w = loading (view w) ->
  length (signals w) = signal -> nextTimer w = id -> st w = s ->
  inflight w = rqs -> timers w = tms -> trace w = tr ->
  Forall (fun r => (r_signal r < signal)%nat) rqs ->
  Forall (fun t => (t_id t < id)%nat) tms ->
  awaiting
    {| r_signal := signal; r_page := p; r_isInitial := i;
       r_retryCount := 0 |}
    id s rqs tms (tr ++ [CallFetch p signal 0]) (beginRequest p i 0 w).
Proof.
  intros Hm He Hsync <- <- <- <- <- <- Hin Htm.
  now apply (begin_awaiting p i 0%nat w).
Qed.

Lemma wellFormed_older (w : World T) :
  wellFormed w ->
  Forall (fun r => (r_signal r < length (signals w))%nat) (inflight w) /\
  Forall (fun t => (t_id t < nextTimer w)%nat) (timers w).
Proof.
  intros [_ Hin _ _ Htm _ _ _]. split.
  - revert Hin. apply List.Forall_impl. now intros r [Hr _].
  - revert Htm. apply List.Forall_impl. intros t Ht. lia.
Qed.

Lemma when_skip (c : bool) (a : Action T) (w : World T) :
  (c = false -> when c a w = w) /\ (a w = w -> when c a w = w).
Proof. destruct c; unfold when, skip; split; intros H; congruence. Qed.

Lemma when_false (a : Action T) (w : World T) : when false a w = w.
Proof. reflexivity. Qed.

Lemma initialLoadEffect_skip (v : Snapshot T) (w : World T) :
  current initialLoadRef w = true \/ loading v = true ->
  initialLoadEffect cfg v w = w.
Proof.
  unfold initialLoadEffect, bind, skip.
  intros [-> | ->]; destruct (enabled cfg), (length (data v) =? 0)%nat;
    cbn; try reflexivity; destruct (loading v); reflexivity.
Qed.

(** A commit without the reset effect: the ref effects run, then the
    initial-load effect if one of its dependencies changed. *)
Lemma render_commit fn (w : World T) :
  mounted w = true ->
  exists r,
    render cfg false fn w =
      when (negb (length (data (view w)) =? length (data (st w)))%nat ||
            negb (eqb (loading (view w)) (loading (st w))) || fn)
        (initialLoadEffect cfg (st w))
        (with_refs r (with_mounted true (with_view (st w) w))) /\
    (current loadingRef w = loading (view w) -> loadingRef r = loading (st w)) /\
    enabledRef r = current enabledRef w /\
    abortControllerRef r = current abortControllerRef w /\
    currentRequestPageRef r = current currentRequestPageRef w /\
    isInitialLoadingRef r = current isInitialLoadingRef w /\
    initialLoadRef r = current initialLoadRef w.
Proof.
  intros Hm. unfold render, bind, seq. rewrite Hm. cbn [negb orb andb].
  rewrite !when_false.
  set (fx := when _ (initialLoadEffect _ _)).
  unfold when, observerEffect, assign, bind, skip, current.
  destruct (eqb (loading (view w)) (loading (st w))) eqn:El;
    destruct (negb (currentPage _ =? _) || fn), (negb (eqb (hasMore _) _));
    cbn [negb]; tidy; try destruct (sentinelRef _); tidy;
    (eexists; split; [reflexivity |]); tidy; repeat split; trivial;
    apply eqb_prop in El; congruence.
Qed.

(** A commit in which neither the reset effect nor the initial load runs:
    only refs change, and [loadingRef] catches up with the state. *)
Lemma render_quiet fn (w : World T) :
  mounted w = true ->
  current initialLoadRef w = true \/ loading (st w) = true ->
  exists r,
    render cfg false fn w =
      with_refs r (with_mounted true (with_view (st w) w)) /\
    (current loadingRef w = loading (view w) -> loadingRef r = loading (st w)) /\
    enabledRef r = current enabledRef w /\
    abortControllerRef r = current abortControllerRef w /\
    currentRequestPageRef r = current currentRequestPageRef w /\
    isInitialLoadingRef r = current isInitialLoadingRef w /\
    initialLoadRef r = current initialLoadRef w.
Proof.
  intros Hm Hq.
  destruct (render_commit fn w Hm) as (r & -> & Hr & He & Hc & Hp & Hi & Hl).
  exists r. split; [| auto 10].
  apply when_skip, initialLoadEffect_skip.
  unfold current in *. tidy. rewrite Hl. exact Hq.
Qed.

Lemma awaiting_render fn rq id s rqs tms tr (w : World T) :
  awaiting rq id s rqs tms tr w ->
  awaiting rq id s rqs tms tr (render cfg false fn w) /\
  current initialLoadRef (render cfg false fn w) = current initialLoadRef w.
Proof.
  intros [Hm He Hh Hl Hc Hi Ho Ht Hti Hnt Hs Hst Htr].
  destruct (render_quiet fn w Hm) as (r & -> & Hr1 & Hr2 & Hr3 & _ & _ & Hr6).
  { right. rewrite Hst. reflexivity. }
  unfold current in *. split; [| exact Hr6].
  constructor; unfold current, aborted in *; tidy; auto; congruence.
Qed.

Lemma awaiting_rejected_retry err rq id s rqs tms tr (w : World T) :
  awaiting rq id s rqs tms tr w ->
  current initialLoadRef w = true ->
  Z.of_nat (r_retryCount rq) < retryAttempts cfg ->
  backingOff cfg rq id s rqs tms
    (tr ++ [CallSetTimeout id
              (retryDelay cfg * 2 ^ Z.of_nat (r_retryCount rq))])
    (step cfg (Settle (r_signal rq) (Rejected err)) w).
Proof.
  intros [Hm He Hh Hl Hc Hi Ho Ht Hti Hnt Hs Hst Htr] Hlatch Hn.
  rewrite (settle_parked _ _ rq rqs) by trivial.
  rewrite resume_retry by trivial.
  unfold current, aborted in *.
  destruct (r_isInitial rq) eqn:Ei;
    constructor; unfold current, aborted; tidy; trivial; try congruence.
  all: now rewrite Hst.
Qed.

Lemma backingOff_render fn rq id s rqs tms tr (w : World T) :
  backingOff cfg rq id s rqs tms tr w ->
  backingOff cfg rq id s rqs tms tr (render cfg false fn w) /\
  loading (view (render cfg false fn w)) = false.
Proof.
  intros [Hm He Hla Hh Hl Hc Hi Ho Ht Hti Hnt Hs Hmk Hin Hst Htr].
  destruct (render_quiet fn w Hm) as (r & -> & Hr1 & Hr2 & Hr3 & Hr4 & Hr5 & Hr6).
  { now left. }
  unfold current in *. split.
  - constructor; unfold current, aborted in *; tidy; auto; try congruence.
    intros Hinit. rewrite Hr5. auto.
  - tidy. now rewrite Hst.
Qed.

Lemma backingOff_fire rq id s rqs tms tr (w : World T) :
  backingOff cfg rq id s rqs tms tr w ->
  loading (view w) = false ->
  let w' := step cfg (Fire id) w in
  awaiting
    {| r_signal := S (r_signal rq); r_page := r_page rq;
       r_isInitial := r_isInitial rq; r_retryCount := r_retryCount rq + 1 |}
    (S id) (set_isRetrying true s) rqs tms
    (tr ++ [CallFetch (r_page rq) (S (r_signal rq)) (r_retryCount rq + 1)])
    w' /\
  current initialLoadRef w' = true.
Proof.
  intros [Hm He Hla Hh Hl Hc Hi Ho Ht Hti Hnt Hs Hmk Hin Hst Htr] Hv w'.
  subst w'. rewrite (fire_parked id _ tms w Ht) by trivial.
  unfold runCallback, bind. tidy.
  replace (aborted (r_signal rq) (with_timers tms w)) with false
    by (symmetry; exact Hl).
  rewrite fetchWithRetry_passes, beginRequest_eq.
  2:{ unfold passes, current in *. tidy. rewrite He, Hmk. repeat split.
      - congruence.
      - destruct (r_isInitial rq); [now rewrite Hin | reflexivity]. }
  unfold current, aborted in *. tidy. rewrite Hh, Hc.
  split; [| now destruct (r_isInitial rq)].
  replace (0 <? r_retryCount rq + 1)%nat with true
    by (symmetry; apply Nat.ltb_lt; lia).
  destruct (r_isInitial rq);
    constructor; unfold current, aborted; tidy; trivial; try congruence.
  all: try (now rewrite length_app, length_insert, Hh, Nat.add_1_r).
  all: try (rewrite lookup_app_r; rewrite length_insert, Hh;
            [now rewrite Nat.sub_diag | lia]).
  all: try (revert Hti; apply List.Forall_impl; intros t Hlt; lia).
  all: try (revert Ho; apply List.Forall_impl; intros r Hlt; lia).
  all: now rewrite Hst.
Qed.

Lemma awaiting_rejected_last err rq id s rqs tms tr (w : World T) :
  awaiting rq id s rqs tms tr w ->
  retryAttempts cfg <= Z.of_nat (r_retryCount rq) ->
  let w' := step cfg (Settle (r_signal rq) (Rejected err)) w in
  st w' = set_loading false (set_isRetrying false
            (set_error (Some (toError err)) s)) /\
  trace w' = tr ++ (if onError cfg then [CallOnError (toError err)] else []) /\
  inflight w' = rqs /\ timers w' = tms /\ mounted w' = true /\
  current currentRequestPageRef w' = None /\
  current initialLoadRef w' = current initialLoadRef w.
Proof.
  intros [Hm He Hh Hl Hc Hi Ho Ht Hti Hnt Hs Hst Htr] Hn w'. subst w'.
  rewrite (settle_parked _ _ rq rqs) by trivial.
  rewrite resume_exhausted by trivial.
  unfold current. tidy. rewrite Hst, Htr.
  destruct (r_isInitial rq); repeat split; trivial.
Qed.

Lemma awaiting_resolved result rq id s rqs tms tr (w : World T) :
  awaiting rq id s rqs tms tr w ->
  let w' := step cfg (Settle (r_signal rq) (Resolved result)) w in
  st w' = MkSnapshot
            (if r_isInitial rq then p_data result
             else data s ++ p_data result)
            false None (p_hasMore result) false (r_page rq)
            (match p_total result with
             | Some total => Some total
             | None => totalCount s
             end) /\
  trace w' = tr ++ (if onSuccess cfg
                    then [CallOnSuccess (p_data result) (r_page rq)]
                    else []) /\
  inflight w' = rqs /\ timers w' = tms /\ mounted w' = true /\
  current currentRequestPageRef w' = None /\
  current initialLoadRef w' = current initialLoadRef w.
Proof.
  intros [Hm He Hh Hl Hc Hi Ho Ht Hti Hnt Hs Hst Htr] w'. subst w'.
  rewrite (settle_parked _ _ rq rqs) by trivial.
  rewrite resume_resolved by trivial.
  unfold current. tidy. rewrite Hst, Htr.
  destruct (r_isInitial rq); repeat split; trivial.
Qed.

End Chain.

(** ** What an action leaves alone *)

Section Frame.

Context {T A : Type}.
Variable f : World T -> A.

Lemma keeps_skip : keeps f skip.
Proof. intros w. reflexivity. Qed.

Lemma keeps_seq (a b : Action T) : keeps f a -> keeps f b -> keeps f (seq a b).
Proof. intros Ha Hb w. unfold seq. now rewrite Hb, Ha. Qed.

Lemma keeps_when (c : bool) (a : Action T) : keeps f a -> keeps f (when c a).
Proof. intros Ha. destruct c; [exact Ha | apply keeps_skip]. Qed.

Lemma keeps_bind {B} (g : World T -> B) (k : B -> Action T) :
  (forall x, keeps f (k x)) -> keeps f (bind g k).
Proof. intros Hk w. unfold bind. apply Hk. Qed.

Lemma keeps_if (c : bool) (a b : Action T) :
  keeps f a -> keeps f b -> keeps f (if c then a else b).
Proof. now destruct c. Qed.

End Frame.

(** Splits a compound action into its primitive writes and closes those
    that do not touch the observation by computation. *)
Ltac frame :=
  repeat first
    [ assumption
    | match goal with
      | H : context [keeps] |- keeps _ _ => apply H
      end
    | match goal with
      | |- keeps _ skip => apply keeps_skip
      | |- keeps _ (seq _ _) => apply keeps_seq
      | |- keeps _ (when _ _) => apply keeps_when
      | |- keeps _ (bind _ _) => apply keeps_bind; intros ?
      | |- keeps _ (if _ then _ else _) => apply keeps_if
      | |- keeps _ (match ?x with _ => _ end) => destruct x
      end
    | progress (intros ?; reflexivity) ].

Section FrameOfHook.

Context {T : Type}.
Variable cfg : Config.

Lemma fetchWithRetry_view p i n : keeps (T:=T) view (fetchWithRetry p i n).
Proof.
  unfold fetchWithRetry, beginRequest, newAbortController, awaitFetchData,
    abortCurrent, setLoading, setError, setIsRetrying. frame.
Qed.

Lemma reset_view : keeps (T:=T) view (reset cfg).
Proof. intros w. now rewrite reset_eq. Qed.

Lemma render_view depsChanged fn (w : World T) :
  view (render cfg depsChanged fn w) = st w.
Proof.
  unfold render, bind, seq.
  assert (Hfx : keeps (T:=T) view (initialLoadEffect cfg (st w))).
  { unfold initialLoadEffect. pose proof fetchWithRetry_view. frame. }
  pose proof reset_view as Hreset.
  repeat (rewrite keeps_when; [| unfold observerEffect; frame]).
  reflexivity.
Qed.

Lemma fetchWithRetry_totalCount p i n :
  keeps (T:=T) totalOf (fetchWithRetry p i n).
Proof.
  unfold fetchWithRetry, beginRequest, newAbortController, awaitFetchData,
    abortCurrent, setLoading, setError, setIsRetrying. frame.
Qed.

Lemma fetchWithRetry_latch p i n :
  keeps (T:=T) (current initialLoadRef) (fetchWithRetry p i n).
Proof.
  unfold fetchWithRetry, beginRequest, newAbortController, awaitFetchData,
    abortCurrent, setLoading, setError, setIsRetrying. frame.
Qed.

End FrameOfHook.

(** ** Whole rounds *)

Section Rounds.

Context {T : Type}.
Variable cfg : Config.

Lemma run_app (evs1 evs2 : list Event) (w : World T) :
  run cfg (evs1 ++ evs2) w = run cfg evs2 (run cfg evs1 w).
Proof.
  revert w. induction evs1 as [|ev evs1 IH]; intros w; [reflexivity |].
  simpl. unfold seq. apply IH.
Qed.

Lemma retry_round fn err rq id s rqs tms tr (w : World T) :
  awaiting rq id s rqs tms tr w ->
  current initialLoadRef w = true ->
  Z.of_nat (r_retryCount rq) < retryAttempts cfg ->
  let w' := run cfg (retryRound fn (r_signal rq) id err) w in
  awaiting
    {| r_signal := S (r_signal rq); r_page := r_page rq;
       r_isInitial := r_isInitial rq; r_retryCount := r_retryCount rq + 1 |}
    (S id) (set_isRetrying true s) rqs tms
    (tr ++ [CallSetTimeout id
              (retryDelay cfg * 2 ^ Z.of_nat (r_retryCount rq));
            CallFetch (r_page rq) (S (r_signal rq)) (r_retryCount rq + 1)])
    w' /\
  current initialLoadRef w' = true.
Proof.
  intros Haw Hlatch Hn w'. subst w'. unfold retryRound, run, seq, skip.
  change (step cfg (@Render T false fn)) with (render (T:=T) cfg false fn).
  destruct (awaiting_render cfg fn _ _ _ _ _ _ _ Haw) as [Haw1 Hl1].
  rewrite Hlatch in Hl1.
  pose proof (awaiting_rejected_retry cfg err _ _ _ _ _ _ _ Haw1 Hl1 Hn)
    as Hbo.
  destruct (backingOff_render cfg fn _ _ _ _ _ _ _ Hbo) as [Hbo1 Hv].
  destruct (backingOff_fire cfg _ _ _ _ _ _ _ Hbo1 Hv) as [Haw2 Hl2].
  split; [| exact Hl2].
  rewrite <- List.app_assoc in Haw2. exact Haw2.
Qed.

Lemma exhausted_round fn err rq id s rqs tms tr (w : World T) :
  awaiting rq id s rqs tms tr w ->
  current initialLoadRef w = true ->
  retryAttempts cfg <= Z.of_nat (r_retryCount rq) ->
  let w' := run cfg (lastRound fn (r_signal rq) (Rejected err)) w in
  let final := set_loading false (set_isRetrying false
                 (set_error (Some (toError err)) s)) in
  view w' = final /\ st w' = final /\
  trace w' = tr ++ (if onError cfg then [CallOnError (toError err)] else []) /\
  inflight w' = rqs /\ timers w' = tms /\
  current currentRequestPageRef w' = None.
Proof.
  intros Haw Hlatch Hn w' final. subst w' final.
  unfold lastRound, run, seq, skip.
  change (step cfg (@Render T false fn)) with (render (T:=T) cfg false fn).
  destruct (awaiting_render cfg fn _ _ _ _ _ _ _ Haw) as [Haw1 Hl1].
  rewrite Hlatch in Hl1.
  destruct (awaiting_rejected_last cfg err _ _ _ _ _ _ _ Haw1 Hn)
    as (Hst & Htr & Hin & Htm & Hm & Hmk & Hl2).
  rewrite Hl1 in Hl2.
  destruct (render_quiet cfg fn _ Hm (or_introl Hl2))
    as (r & -> & _ & _ & _ & Hr & _).
  unfold current in *. tidy. rewrite Hr. repeat split; assumption.
Qed.

Lemma resolved_round fn result rq id s rqs tms tr (w : World T) :
  awaiting rq id s rqs tms tr w ->
  current initialLoadRef w = true ->
  let w' := run cfg (lastRound fn (r_signal rq) (Resolved result)) w in
  let final :=
    MkSnapshot
      (if r_isInitial rq then p_data result else data s ++ p_data result)
      false None (p_hasMore result) false (r_page rq)
      (match p_total result with
       | Some total => Some total
       | None => totalCount s
       end) in
  view w' = final /\ st w' = final /\
  trace w' = tr ++ (if onSuccess cfg
                    then [CallOnSuccess (p_data result) (r_page rq)]
                    else []) /\
  inflight w' = rqs /\ timers w' = tms /\
  current currentRequestPageRef w' = None.
Proof.
  intros Haw Hlatch w' final. subst w' final.
  unfold lastRound, run, seq, skip.
  change (step cfg (@Render T false fn)) with (render (T:=T) cfg false fn).
  destruct (awaiting_render cfg fn _ _ _ _ _ _ _ Haw) as [Haw1 Hl1].
  rewrite Hlatch in Hl1.
  destruct (awaiting_resolved cfg result _ _ _ _ _ _ _ Haw1)
    as (Hst & Htr & Hin & Htm & Hm & Hmk & Hl2).
  rewrite Hl1 in Hl2.
  destruct (render_quiet cfg fn _ Hm (or_introl Hl2))
    as (r & -> & _ & _ & _ & Hr & _).
  unfold current in *. tidy. rewrite Hr. repeat split; assumption.
Qed.

(** A load that passes the early returns of [fetchWithRetry] in an idle
    component parks its first attempt. *)
Lemma load_begins p i (w : World T) :
  idle w -> passes p i w ->
  awaiting
    {| r_signal := length (signals w); r_page := p; r_isInitial := i;
       r_retryCount := 0 |}
    (nextTimer w) (st w) (inflight w) (timers w)
    (trace w ++ [CallFetch p (length (signals w)) 0])
    (fetchWithRetry p i 0 w) /\
  current initialLoadRef (fetchWithRetry p i 0 w) = true.
Proof.
  intros [Hwf Hm Hlatch Hv] Hp. split.
  - rewrite fetchWithRetry_passes by exact Hp.
    destruct (wellFormed_older w Hwf) as [Hin Htm].
    apply (begin_awaiting p i 0%nat w Hm); trivial; [apply Hp |].
    now apply (wf_sync w Hwf).
  - now rewrite fetchWithRetry_latch.
Qed.

End Rounds.

(** ** Settling a parked request *)

Section Settling.

Context {T : Type}.
Variable cfg : Config.

Lemma find_request_signal (signal : nat) (rqs : list Request) (rq : Request) :
  find_request signal rqs = Some rq -> r_signal rq = signal.
Proof.
  unfold find_request. intros H. apply List.find_some in H.
  now apply Nat.eqb_eq.
Qed.

Lemma settle_found (signal : nat) (o : Outcome T) (rq : Request)
    (w : World T) :
  find_request signal (inflight w) = Some rq ->
  step cfg (Settle signal o) w =
  resume cfg rq o
    (with_inflight
       (List.filter (fun r => negb (Nat.eqb (r_signal r) signal)) (inflight w))
       w).
Proof. intros H. unfold step, bind, seq. now rewrite H. Qed.

Lemma settle_missing (signal : nat) (o : Outcome T) (w : World T) :
  find_request signal (inflight w) = None ->
  step cfg (Settle signal o) w = w.
Proof. intros H. unfold step, bind, skip. now rewrite H. Qed.

End Settling.

(** ** The claims about single operations *)

Section Operations.

Context {T : Type}.
Variable cfg : Config.

(** C1 (as amended).  When an attempt of page [p] fails with
    [retryCount < retryAttempts] and its signal is not aborted, a timer is
    set for [retryDelay * 2 ^ retryCount] that re-invokes the load with
    [retryCount + 1]; the [finally] block of the failed attempt has then
    already set [loading] to false and cleared the in-flight page marker,
    without setting [error] or calling [onError].  They are set again when
    the timer fires and the re-invocation passes the early returns. *)
Theorem failed_attempt_backs_off_idle (w : World T) (signal : nat)
    (rq : Request) (err : Thrown) :
  find_request signal (inflight w) = Some rq ->
  aborted signal w = false ->
  Z.of_nat (r_retryCount rq) < retryAttempts cfg ->
  let delay := retryDelay cfg * 2 ^ Z.of_nat (r_retryCount rq) in
  let again := RetryTimer signal (r_page rq) (r_isInitial rq)
                 (r_retryCount rq) in
  let w' := step cfg (Settle signal (Rejected err)) w in
  timers w' = timers w ++
    [{| t_id := nextTimer w; t_delay := delay; t_callback := again |}] /\
  trace w' = trace w ++ [CallSetTimeout (nextTimer w) delay] /\
  loading (st w') = false /\
  loading (view (render cfg false false w')) = false /\
  current currentRequestPageRef w' = None /\
  error (st w') = error (st w) /\
  forall w2 : World T,
    aborted signal w2 = false ->
    passes (r_page rq) (r_isInitial rq) w2 ->
    let w3 := runCallback cfg again w2 in
    loading (st w3) = true /\
    current currentRequestPageRef w3 = Some (r_page rq) /\
    trace w3 = trace w2 ++
      [CallFetch (r_page rq) (length (signals w2)) (r_retryCount rq + 1)].
Proof.
  intros Hf Ha Hn delay again w'. subst delay again w'.
  pose proof (find_request_signal _ _ _ Hf) as Hs.
  rewrite (settle_found cfg _ _ _ _ Hf), render_view. subst signal.
  rewrite resume_retry by trivial. unfold current. tidy.
  do 6 (split; [trivial; now destruct (r_isInitial rq) |]).
  intros w2 Ha2 Hp. unfold runCallback, bind. rewrite Ha2.
  rewrite fetchWithRetry_passes, beginRequest_eq by trivial. tidy.
  split; [now destruct (0 <? _)%nat |].
  split; [now destruct (r_isInitial rq) | reflexivity].
Qed.

(** C2.  When the signal of a request has been aborted before its fetch
    settles, the settlement changes no state cell, no ref, no timer and no
    abort flag, and calls neither [onSuccess] nor [onError], whatever the
    fetch resolved or rejected with. *)
Theorem cancelled_settlement_is_silent (w : World T) (signal : nat)
    (o : Outcome T) :
  aborted signal w = true ->
  let w' := step cfg (Settle signal o) w in
  st w' = st w /\ view w' = view w /\ refs w' = refs w /\
  signals w' = signals w /\ timers w' = timers w /\ trace w' = trace w.
Proof.
  intros Ha w'. subst w'.
  destruct (find_request signal (inflight w)) as [rq|] eqn:Hf.
  - pose proof (find_request_signal _ _ _ Hf) as Hs.
    rewrite (settle_found cfg _ _ _ _ Hf). subst signal.
    rewrite resume_aborted by exact Ha. repeat split.
  - rewrite settle_missing by exact Hf. repeat split.
Qed.

(** C5.  When the rendered [hasMore] is false, or the rendered [loading] is
    true, or a page is recorded as in flight, [loadMore()] leaves the whole
    world as it was: no state cell changes and [fetchData] is not called. *)
Theorem loadMore_is_noop_when_gated (w : World T) :
  hasMore (view w) = false \/ loading (view w) = true \/
  current currentRequestPageRef w <> None ->
  step cfg LoadMore w = w.
Proof.
  unfold step, loadMore, bind, skip, current.
  intros [-> | [-> | H]].
  - now rewrite andb_false_r.
  - reflexivity.
  - destruct (currentRequestPageRef (refs w)); [| contradiction].
    cbn [is_null]. now rewrite andb_false_r.
Qed.

(** C7.  A fetch that resolves with its signal not aborted replaces [data]
    by the new items on an initial load and appends them otherwise, keeping
    the previous items in place; it sets [hasMore] and [currentPage] from
    the result and the request, clears [loading] and [isRetrying], and
    calls a supplied [onSuccess] with the new items and the page. *)
Theorem resolved_fetch_merges_page (w : World T) (signal : nat)
    (rq : Request) (result : Page T) :
  find_request signal (inflight w) = Some rq ->
  aborted signal w = false ->
  let w' := step cfg (Settle signal (Resolved result)) w in
  data (st w') =
    (if r_isInitial rq then p_data result
     else data (st w) ++ p_data result) /\
  (r_isInitial rq = false ->
   firstn (length (data (st w))) (data (st w')) = data (st w)) /\
  hasMore (st w') = p_hasMore result /\
  currentPage (st w') = r_page rq /\
  loading (st w') = false /\
  isRetrying (st w') = false /\
  current currentRequestPageRef w' = None /\
  current retryCountRef w' = 0%nat /\
  trace w' = trace w ++
    (if onSuccess cfg then [CallOnSuccess (p_data result) (r_page rq)]
     else []).
Proof.
  intros Hf Ha w'. subst w'.
  pose proof (find_request_signal _ _ _ Hf) as Hs.
  rewrite (settle_found cfg _ _ _ _ Hf). subst signal.
  rewrite resume_resolved by trivial. unfold current. tidy.
  repeat split; try (now destruct (r_isInitial rq)).
  intros ->. rewrite firstn_app, Nat.sub_diag, firstn_all.
  cbn. apply app_nil_r.
Qed.

End Operations.

Section Lifecycle.

Context {T : Type}.
Variable cfg : Config.

(** Aborting through [abortControllerRef] cancels every owned signal. *)
Lemma owned_aborted (w : World T) (signal : nat) :
  owned w signal ->
  match abortIn (current abortControllerRef w) (signals w) !! signal with
  | Some b => b
  | None => false
  end = true.
Proof.
  unfold owned, aborted, current. intros [Hlt Hlive].
  destruct (signals w !! signal) as [[|]|] eqn:Hs.
  - destruct (abortControllerRef (refs w)) as [c|]; simpl; [| now rewrite Hs].
    destruct (decide (c = signal)) as [-> | Hne].
    + now rewrite list_lookup_insert_eq.
    + now rewrite list_lookup_insert_ne, Hs.
  - rewrite (Hlive eq_refl). simpl. now rewrite list_lookup_insert_eq.
  - apply lookup_ge_None in Hs. lia.
Qed.

Lemma find_filtered (id : nat) (tms : list Timer) :
  find_timer id (List.filter (fun t => negb (Nat.eqb (t_id t) id)) tms) = None.
Proof.
  unfold find_timer. induction tms as [|t tms IH]; [reflexivity |].
  simpl. destruct (Nat.eqb (t_id t) id) eqn:E; simpl; [exact IH |].
  now rewrite E.
Qed.

(** C6.  From any well-formed world, right after [reset()] the state cells
    hold their construction-time values (and so does the next render), the
    retry counter is zero, the in-flight page, initial-loading and
    initial-load markers are cleared, the signal of every parked request and
    of every pending retry timer is aborted, and the debounce timer held in
    [debounceTimerRef] is no longer pending. *)
Theorem reset_restores_defaults (w : World T) (depsChanged fn : bool) :
  wellFormed w ->
  let w' := step cfg ResetNow w in
  st w' = initialSnapshot cfg /\
  view (render cfg depsChanged fn w') = initialSnapshot cfg /\
  st w' = MkSnapshot [] false None true false (initialPage cfg) None /\
  current retryCountRef w' = 0%nat /\
  current currentRequestPageRef w' = None /\
  current isInitialLoadingRef w' = false /\
  current initialLoadRef w' = false /\
  Forall (fun r => aborted (r_signal r) w' = true) (inflight w') /\
  Forall (fun t => forall signal,
    callback_signal (t_callback t) = Some signal ->
    aborted signal w' = true) (timers w') /\
  forall id, current debounceTimerRef w = Some id ->
    find_timer id (timers w') = None.
Proof.
  intros [_ Hin _ Hre _ _ Hdb _] w'. subst w'. unfold step.
  rewrite render_view, reset_eq. unfold current, aborted. tidy.
  do 7 (split; [reflexivity |]).
  split; [| split].
  - revert Hin. apply List.Forall_impl. intros r.
    exact (owned_aborted w (r_signal r)).
  - assert (Hall : Forall (fun t => forall signal,
      callback_signal (t_callback t) = Some signal ->
      match abortIn (abortControllerRef (refs w)) (signals w) !! signal with
      | Some b => b
      | None => false
      end = true) (timers w)).
    { revert Hre. apply List.Forall_impl. intros t Ht signal Hs.
      apply (owned_aborted w signal). auto. }
    destruct (debounceTimerRef (refs w)) as [id|]; [| exact Hall].
    destruct (truthy (Some id)); [| exact Hall].
    apply List.Forall_forall. intros t Ht.
    apply List.filter_In in Ht. destruct Ht as [Ht _].
    rewrite List.Forall_forall in Hall. exact (Hall t Ht).
  - intros id Hid. rewrite Hid.
    destruct (Hdb id Hid) as [Hpos _].
    replace (truthy (Some id)) with true.
    + apply find_filtered.
    + symmetry. simpl. apply negb_true_iff, Nat.eqb_neq. lia.
Qed.

End Lifecycle.

Section TotalCount.

Context {T : Type}.
Variable cfg : Config.

Lemma resume_totalCount rq o (w : World T) :
  totalOf (resume cfg rq o w) =
  match o with
  | Resolved result =>
      if aborted (r_signal rq) w then totalOf w
      else match p_total result with
           | Some t => Some t
           | None => totalOf w
           end
  | Rejected _ => totalOf w
  end.
Proof.
  unfold totalOf. destruct (aborted (r_signal rq) w) eqn:Ha.
  - rewrite resume_aborted by exact Ha. now destruct o.
  - destruct o as [result | err].
    + now rewrite resume_resolved.
    + destruct (Z.ltb_spec (Z.of_nat (r_retryCount rq)) (retryAttempts cfg)).
      * now rewrite resume_retry.
      * now rewrite resume_exhausted.
Qed.

Lemma render_totalCount depsChanged fn (w : World T) :
  (negb (mounted w) || depsChanged) && (0 <? resetDependencies cfg)%nat
    = false ->
  totalOf (render cfg depsChanged fn w) = totalOf w.
Proof.
  intros H. unfold render, bind, seq. rewrite H.
  pose proof (fetchWithRetry_totalCount (T:=T)) as Hf.
  assert (Hfx : keeps (T:=T) totalOf
                  (initialLoadEffect cfg (st w))).
  { unfold initialLoadEffect. frame. }
  repeat first
    [ rewrite when_false
    | rewrite keeps_when; [| unfold observerEffect; frame] ].
  reflexivity.
Qed.

Lemma step_totalCount (ev : Event) (w : World T) :
  callsReset cfg ev w = false ->
  totalOf (step cfg ev w) = totalOf w \/
  exists signal result t,
    ev = Settle signal (Resolved result) /\ p_total result = Some t /\
    totalOf (step cfg ev w) = Some t.
Proof.
  intros Hr. pose proof (fetchWithRetry_totalCount (T:=T)) as Hf.
  destruct ev as [d fn | | | | | a | i | doc | h | id | signal o];
    try discriminate Hr.
  - left. now apply render_totalCount.
  - left. unfold totalOf. cbn [step].
      assert (Hk : keeps (T:=T) totalOf (loadMore cfg))
      by (unfold loadMore; frame).
    apply (Hk w).
  - left. cbn [step].
    assert (Hk : keeps (T:=T) totalOf retry)
      by (unfold retry; frame).
    apply (Hk w).
  - left. reflexivity.
  - left. cbn [step].
    assert (Hk : forall x, keeps (T:=T) totalOf
                   (observerCallback x i))
      by (intros x; unfold observerCallback; frame).
    unfold bind. destruct (current observerRef w); [apply (Hk _ w) |].
    reflexivity.
  - left. cbn [step].
    assert (Hk : forall x, keeps (T:=T) totalOf
                   (debouncedScrollHandler cfg x))
      by (intros x; unfold debouncedScrollHandler, setTimeout, clearTimeout;
          frame).
    unfold bind, seq. rewrite (keeps_when _ _ _ (Hk _)). reflexivity.
  - left. unfold totalOf. cbn [step]. unfold bind.
    destruct (mounted w), h; reflexivity.
  - left. cbn [step]. unfold bind, seq.
    destruct (find_timer id (timers w)) as [t|]; [| reflexivity].
    assert (Hk : keeps (T:=T) totalOf
                   (runCallback cfg (t_callback t)))
      by (unfold runCallback, scrollTimer; frame).
    now rewrite (Hk _).
  - destruct (find_request signal (inflight w)) as [rq|] eqn:Hq.
    + rewrite (settle_found cfg _ _ _ _ Hq), resume_totalCount.
      destruct o as [result | err]; [| now left].
      destruct (aborted _ _); [now left |].
      destruct (p_total result) as [t|] eqn:Ht; [| now left].
      right. exists signal, result, t. auto.
    + left. now rewrite settle_missing.
Qed.

(** C10.  Once [totalCount] is set, a fetch that resolves without a total
    leaves it unchanged, no event that does not call [reset()] can bring it
    back to null, and [reset()] and [refresh()] do. *)
Theorem totalCount_survives_until_reset (w : World T) (ev : Event) :
  totalCount (st w) <> None ->
  (callsReset cfg ev w = false ->
   totalCount (st (step cfg ev w)) <> None) /\
  (forall signal result,
     ev = Settle signal (Resolved result) -> p_total result = None ->
     totalCount (st (step cfg ev w)) = totalCount (st w)) /\
  totalCount (st (step cfg ResetNow w)) = None /\
  totalCount (st (step cfg Refresh w)) = None.
Proof.
  intros Hset. split; [| split; [| split]].
  - intros Hr. destruct (step_totalCount ev w Hr) as [He | (s & r & t & _ & _ & He)];
      unfold totalOf in He; rewrite He; [exact Hset | discriminate].
  - intros signal result -> Hnone.
    destruct (step_totalCount (Settle signal (Resolved result)) w eq_refl)
      as [He | (s & r & t & Hev & Ht & _)]; [exact He |].
    injection Hev as _ <-. congruence.
  - cbn [step]. now rewrite reset_eq.
  - cbn [step]. unfold refresh, seq, setTimeout, bind, emit, skip.
    now rewrite reset_eq.
Qed.

End TotalCount.

(** ** The claims about whole loads *)

Section Loads.

Context {T : Type}.
Variable cfg : Config.

(** C3.  With [retryAttempts = 2] and a fetch that rejects every time, one
    load of page [p] started in an idle component calls [fetchData] exactly
    three times, as attempts 0, 1 and 2; the timer before the second call
    is set for [retryDelay], the one before the third for [retryDelay * 2];
    then [error] holds the last rejection, [loading] is false, and nothing
    is left parked. *)
Theorem always_failing_fetch_makes_three_attempts (w : World T) (p : Z)
    (isInitial fn : bool) (e0 e1 e2 : Error) :
  retryAttempts cfg = 2 ->
  idle w -> passes p isInitial w ->
  let s := length (signals w) in
  let t := nextTimer w in
  let w' :=
    run cfg
      (retryRound fn s t (ThrownError e0) ++
       retryRound fn (S s) (S t) (ThrownError e1) ++
       lastRound fn (S (S s)) (Rejected (ThrownError e2)))
      (fetchWithRetry p isInitial 0 w) in
  trace w' = trace w ++
    [CallFetch p s 0; CallSetTimeout t (retryDelay cfg);
     CallFetch p (S s) 1; CallSetTimeout (S t) (retryDelay cfg * 2);
     CallFetch p (S (S s)) 2] ++
    (if onError cfg then [CallOnError e2] else []) /\
  fetches w' = (fetches w + 3)%nat /\
  error (view w') = Some e2 /\ loading (view w') = false /\
  st w' = view w' /\ inflight w' = inflight w /\ timers w' = timers w.
Proof.
  intros Hn Hidle Hp s t w'. subst s t w'.
  destruct (load_begins p isInitial w Hidle Hp) as [Haw Hl].
  rewrite !run_app.
  destruct (retry_round cfg fn (ThrownError e0) _ _ _ _ _ _ _ Haw Hl)
    as [Haw1 Hl1]; [cbn; lia |].
  cbn [r_signal r_page r_isInitial r_retryCount] in Haw1, Hl1.
  destruct (retry_round cfg fn (ThrownError e1) _ _ _ _ _ _ _ Haw1 Hl1)
    as [Haw2 Hl2]; [cbn; lia |].
  cbn [r_signal r_page r_isInitial r_retryCount] in Haw2, Hl2.
  destruct (exhausted_round cfg fn (ThrownError e2) _ _ _ _ _ _ _ Haw2 Hl2)
    as (Hv & Hst & Htr & Hin & Htm & _); [cbn; lia |].
  cbn [r_signal r_page r_isInitial r_retryCount toError] in *.
  replace (retryDelay cfg * 2 ^ Z.of_nat 0) with (retryDelay cfg) in Htr
    by (cbn; lia).
  replace (retryDelay cfg * 2 ^ Z.of_nat (0 + 1)) with (retryDelay cfg * 2)
    in Htr by (cbn; lia).
  assert (Htrace : trace
    (run cfg (lastRound fn (S (S (length (signals w))))
                (Rejected (ThrownError e2)))
       (run cfg (retryRound fn (S (length (signals w))) (S (nextTimer w))
                   (ThrownError e1))
          (run cfg (retryRound fn (length (signals w)) (nextTimer w)
                      (ThrownError e0))
             (fetchWithRetry p isInitial 0 w)))) =
    trace w ++
    [CallFetch p (length (signals w)) 0;
     CallSetTimeout (nextTimer w) (retryDelay cfg);
     CallFetch p (S (length (signals w))) 1;
     CallSetTimeout (S (nextTimer w)) (retryDelay cfg * 2);
     CallFetch p (S (S (length (signals w)))) 2] ++
    (if onError cfg then [CallOnError e2] else [])).
  { rewrite Htr. rewrite <- !List.app_assoc. reflexivity. }
  split; [exact Htrace |]. split.
  - unfold fetches. rewrite Htrace, !List.filter_app, !length_app.
    destruct (onError cfg); cbn; lia.
  - rewrite Hv, Hst, Hin, Htm. repeat split.
Qed.

(** C8.  With [retryAttempts = 3] and a fetch that rejects twice and then
    resolves, one load of page [p] started in an idle component ends with
    the page merged, [error] null, [loading] and [isRetrying] false, after
    three calls of [fetchData] and one call of a supplied [onSuccess]. *)
Theorem fetch_succeeding_on_third_attempt (w : World T) (p : Z)
    (isInitial fn : bool) (err0 err1 : Thrown) (result : Page T) :
  retryAttempts cfg = 3 ->
  idle w -> passes p isInitial w ->
  let s := length (signals w) in
  let t := nextTimer w in
  let w' :=
    run cfg
      (retryRound fn s t err0 ++
       retryRound fn (S s) (S t) err1 ++
       lastRound fn (S (S s)) (Resolved result))
      (fetchWithRetry p isInitial 0 w) in
  trace w' = trace w ++
    [CallFetch p s 0; CallSetTimeout t (retryDelay cfg);
     CallFetch p (S s) 1; CallSetTimeout (S t) (retryDelay cfg * 2);
     CallFetch p (S (S s)) 2] ++
    (if onSuccess cfg then [CallOnSuccess (p_data result) p] else []) /\
  view w' =
    MkSnapshot
      (if isInitial then p_data result else data (st w) ++ p_data result)
      false None (p_hasMore result) false p
      (match p_total result with
       | Some total => Some total
       | None => totalCount (st w)
       end) /\
  error (view w') = None /\ isRetrying (view w') = false /\
  loading (view w') = false /\
  st w' = view w' /\ inflight w' = inflight w /\ timers w' = timers w.
Proof.
  intros Hn Hidle Hp s t w'. subst s t w'.
  destruct (load_begins p isInitial w Hidle Hp) as [Haw Hl].
  rewrite !run_app.
  destruct (retry_round cfg fn err0 _ _ _ _ _ _ _ Haw Hl)
    as [Haw1 Hl1]; [cbn; lia |].
  cbn [r_signal r_page r_isInitial r_retryCount] in Haw1, Hl1.
  destruct (retry_round cfg fn err1 _ _ _ _ _ _ _ Haw1 Hl1)
    as [Haw2 Hl2]; [cbn; lia |].
  cbn [r_signal r_page r_isInitial r_retryCount] in Haw2, Hl2.
  destruct (resolved_round cfg fn result _ _ _ _ _ _ _ Haw2 Hl2)
    as (Hv & Hst & Htr & Hin & Htm & _).
  cbn [r_signal r_page r_isInitial r_retryCount] in *.
  replace (retryDelay cfg * 2 ^ Z.of_nat 0) with (retryDelay cfg) in Htr
    by (cbn; lia).
  replace (retryDelay cfg * 2 ^ Z.of_nat (0 + 1)) with (retryDelay cfg * 2)
    in Htr by (cbn; lia).
  rewrite Htr, Hst, Hv, Hin, Htm. tidy.
  split; [rewrite <- !List.app_assoc; reflexivity |].
  repeat split.
Qed.

End Loads.

Section Refreshing.

Context {T : Type}.
Variable cfg : Config.

Lemma refresh_eq (w : World T) :
  refresh cfg w =
  MkWorld (view w) (initialSnapshot cfg)
    (set_initialLoadRef false
       (set_isInitialLoadingRef false
          (set_currentRequestPageRef None
             (set_retryCountRef 0 (refs w)))))
    (abortIn (current abortControllerRef w) (signals w))
    (inflight w)
    (afterClear w ++
       [{| t_id := nextTimer w; t_delay := 0; t_callback := RefreshTimer |}])
    (S (nextTimer w)) (mounted w) (document w)
    (trace w ++ [CallSetTimeout (nextTimer w) 0]).
Proof.
  unfold refresh, seq, setTimeout, bind, emit, skip. now rewrite reset_eq.
Qed.

Lemma afterClear_older (w : World T) (id : nat) :
  Forall (fun t => (t_id t < id)%nat) (timers w) ->
  Forall (fun t => (t_id t < id)%nat) (afterClear w).
Proof.
  intros H. unfold afterClear.
  destruct (current debounceTimerRef w) as [d|]; [| exact H].
  destruct (truthy (Some d)); [| exact H].
  apply List.Forall_forall. intros t Ht. apply List.filter_In in Ht.
  rewrite List.Forall_forall in H. apply H, Ht.
Qed.

Lemma awaiting_with_timers rq id s rqs tms tms' tr (w : World T) :
  awaiting rq id s rqs tms tr w ->
  Forall (fun t => (t_id t < id)%nat) tms' ->
  awaiting rq id s rqs tms' tr (with_timers tms' w).
Proof.
  intros [Hm He Hh Hl Hc Hi Ho Ht Hti Hnt Hs Hst Htr] Hlt.
  constructor; trivial.
Qed.

(** After [refresh()], one commit and the refresh timer, the replace-load
    of the initial page is parked exactly once, whether the initial-load
    effect or the timer started it. *)
Lemma refresh_awaiting fn (w : World T) :
  enabled cfg = true -> wellFormed w -> mounted w = true ->
  current enabledRef w = true ->
  awaiting
    {| r_signal := length (signals w); r_page := initialPage cfg;
       r_isInitial := true; r_retryCount := 0 |}
    (S (nextTimer w)) (initialSnapshot cfg) (inflight w) (afterClear w)
    (trace w ++ [CallSetTimeout (nextTimer w) 0;
                 CallFetch (initialPage cfg) (length (signals w)) 0])
    (run cfg [Refresh; Render false fn; Fire (nextTimer w)] w).
Proof.
  intros Hen Hwf Hm He.
  destruct (wellFormed_older w Hwf) as [Hin Htm].
  pose proof (wf_sync w Hwf Hm) as Hsync.
  pose proof (afterClear_older w _ Htm) as Hclr.
  assert (Hclr' : Forall (fun t => (t_id t < S (nextTimer w))%nat)
                    (afterClear w))
    by (revert Hclr; apply List.Forall_impl; intros t Ht; lia).
  unfold run, seq, skip.
  change (step cfg (@Refresh T) w) with (refresh cfg w).
  change (step cfg (@Render T false fn)) with (render (T:=T) cfg false fn).
  rewrite refresh_eq.
  set (w1 := MkWorld _ _ _ _ _ _ _ _ _ _).
  destruct (render_commit cfg fn w1 Hm) as (r & -> & Hr & Hre & Hrc & Hrp & Hri & Hrl).
  unfold current in *. subst w1. tidy. specialize (Hr Hsync).
  set (w2 := with_refs r _).
  pose proof (length_abortIn (signals w) (abortControllerRef (refs w)))
    as Hlen.
  assert (Hfire : forall w3 : World T,
    timers w3 = afterClear w ++
      [{| t_id := nextTimer w; t_delay := 0; t_callback := RefreshTimer |}] ->
    step cfg (Fire (nextTimer w)) w3 =
    fetchWithRetry (initialPage cfg) true 0 (with_timers (afterClear w) w3)).
  { intros w3 Ht. now rewrite (fire_parked cfg _ _ _ w3 Ht). }
  destruct (negb _ || negb _ || fn); unfold when, skip.
  - (* the effect starts the load; the timer finds it already running *)
    unfold initialLoadEffect, bind, seq, assign, current. subst w2. tidy.
    rewrite Hen, Hrl, Hri. tidy. cbn [length Nat.eqb andb].
    rewrite fetchWithRetry_passes
      by (unfold passes, current; tidy; rewrite Hre, Hr, He;
          repeat split; [apply andb_false_r | exact Hri]).
    set (w3 := beginRequest _ _ _ _).
    rewrite Hfire by (subst w3; now rewrite beginRequest_eq).
    rewrite fetchWithRetry_returns
      by (right; right; subst w3; now rewrite beginRequest_eq).
    apply awaiting_with_timers with
      (tms := afterClear w ++
         [{| t_id := nextTimer w; t_delay := 0;
             t_callback := RefreshTimer |}]); [| exact Hclr'].
    rewrite snoc2.
    subst w3. apply begin_awaiting_at; unfold current; tidy; trivial;
      try congruence.
    apply Forall_app; split; [exact Hclr' | repeat constructor].
  - (* no dependency of the effect changed; the timer starts the load *)
    rewrite Hfire by reflexivity.
    rewrite fetchWithRetry_passes
      by (unfold passes, current; subst w2; tidy; rewrite Hre, Hr, He;
          repeat split; [apply andb_false_r | exact Hri]).
    rewrite snoc2.
    apply begin_awaiting_at; unfold current; subst w2; tidy; trivial;
      congruence.
Qed.

(** Mounting an enabled component parks the initial load. *)
Lemma mount_awaiting depsChanged fn :
  enabled cfg = true ->
  awaiting (T:=T)
    {| r_signal := 0; r_page := initialPage cfg; r_isInitial := true;
       r_retryCount := 0 |}
    1 (initialSnapshot cfg) [] [] [CallFetch (initialPage cfg) 0 0]
    (render cfg depsChanged fn (initialWorld cfg)).
Proof.
  intros Hen. destruct cfg as [ip th en [|rd] oe os db ra rdl];
    cbn in Hen; subst en;
    constructor; vm_compute; first [reflexivity | repeat constructor].
Qed.

(** C9.  From any well-formed, mounted, enabled and visible component,
    [refresh()] followed by a commit, the refresh timer, a commit, the
    settlement of the load and a commit shows the same state as a freshly
    mounted component after its initial load settled with the same result.
    [refresh()] itself calls [setTimeout(..., 0)] and does not call
    [fetchData]. *)
Theorem refresh_matches_fresh_mount (w : World T) (fn : bool)
    (result : Page T) :
  enabled cfg = true -> wellFormed w -> mounted w = true ->
  current enabledRef w = true ->
  let refreshed :=
    run cfg [Refresh; Render false fn; Fire (nextTimer w); Render false fn;
             Settle (length (signals w)) (Resolved result); Render false fn]
      w in
  let fresh :=
    run cfg [Render false fn; Render false fn; Settle 0 (Resolved result);
             Render false fn]
      (initialWorld cfg) in
  view refreshed = view fresh /\
  view refreshed =
    MkSnapshot (p_data result) false None (p_hasMore result) false
      (initialPage cfg) (p_total result) /\
  trace (step cfg Refresh w) = trace w ++ [CallSetTimeout (nextTimer w) 0] /\
  inflight (step cfg Refresh w) = inflight w /\
  fetches (step cfg Refresh w) = fetches w.
Proof.
  intros Hen Hwf Hm He refreshed fresh.
  assert (Hnew : view refreshed =
    MkSnapshot (p_data result) false None (p_hasMore result) false
      (initialPage cfg) (p_total result)).
  { subst refreshed.
    change [Refresh; Render false fn; Fire (nextTimer w); Render false fn;
            Settle (length (signals w)) (Resolved result); Render false fn]
      with ([Refresh; Render false fn; Fire (nextTimer w)] ++
            [@Render T false fn;
             Settle (length (signals w)) (Resolved result); Render false fn]).
    rewrite run_app.
    pose proof (refresh_awaiting fn w Hen Hwf Hm He) as Haw.
    unfold run at 1, seq, skip.
    change (step cfg (@Render T false fn)) with (render (T:=T) cfg false fn).
    rewrite render_view.
    apply awaiting_render with (fn := fn) (cfg := cfg) in Haw.
    destruct Haw as [Haw _].
    destruct (awaiting_resolved cfg result _ _ _ _ _ _ _ Haw) as (Hst & _).
    cbn [r_signal r_isInitial r_page] in Hst. rewrite Hst.
    now destruct (p_total result). }
  split; [| split; [exact Hnew |]].
  - rewrite Hnew. subst fresh. unfold run, seq, skip.
    change (step cfg (@Render T false fn)) with (render (T:=T) cfg false fn).
    rewrite render_view.
    pose proof (mount_awaiting false fn Hen) as Haw.
    apply awaiting_render with (fn := fn) (cfg := cfg) in Haw.
    destruct Haw as [Haw _].
    destruct (awaiting_resolved cfg result _ _ _ _ _ _ _ Haw) as (Hst & _).
    cbn [r_signal r_isInitial r_page] in Hst. rewrite Hst.
    now destruct (p_total result).
  - cbn [step]. rewrite refresh_eq. unfold fetches. tidy.
    repeat split. rewrite List.filter_app, length_app. cbn. lia.
Qed.

End Refreshing.

(** ** Concrete worlds *)

Ltac concrete_wf :=
  constructor; vm_compute;
  repeat first
    [ apply List.Forall_nil | apply List.Forall_cons
    | apply NoDup_nil_2 | apply NoDup_cons_2
    | split | intros ? ];
  try solve [ simplify_eq; first [lia | congruence | tauto]
            | match goal with
              | H : _ ∈ _ |- _ =>
                  apply list_elem_of_In in H; vm_compute in H; intuition lia
              end ].

Lemma startingWorld_wellFormed : wellFormed (startingWorld appConfig).
Proof. concrete_wf. Qed.

Lemma browsingWorld_idle (cfg : Config) :
  cfg = appConfig \/ cfg = twoRetries -> idle (browsingWorld cfg).
Proof.
  intros [-> | ->]; constructor; try reflexivity; concrete_wf.
Qed.

Lemma loadingMoreWorld_wellFormed : wellFormed (loadingMoreWorld appConfig).
Proof. concrete_wf. Qed.

Lemma failedWorld_wellFormed : wellFormed failedWorld.
Proof. concrete_wf. Qed.

Section Retrying.

Context {T : Type}.
Variable cfg : Config.

Lemma mayTrigger_passes (w : World T) (p : Z) :
  mayTrigger w = true -> passes p false w.
Proof.
  unfold mayTrigger, passes. intros H.
  apply andb_prop in H as [H Hnull]. apply andb_prop in H as [H Hen].
  apply andb_prop in H as [Hld _]. apply negb_true_iff in Hld.
  destruct (current currentRequestPageRef w); [discriminate |].
  repeat split; trivial.
Qed.

(** C4 (as amended).  With an error on screen and the failed page being
    the one recorded as [currentPage], [retry()] fetches that page again as
    an append load with attempt counter 0, provided the early returns of
    [fetchWithRetry] are passed.  The error does not gate the triggers:
    [loadMore()] and the intersection observer still fetch the next page
    when their own tests pass.  [retry()] with no error on screen does
    nothing. *)
Theorem retry_refetches_current_page (w : World T) (e : Error) (p : Z) :
  error (view w) = Some e ->
  currentPage (view w) = p ->
  passes p false w ->
  trace (step cfg RetryNow w) =
    trace w ++ [CallFetch p (length (signals w)) 0] /\
  inflight (step cfg RetryNow w) =
    inflight w ++ [{| r_signal := length (signals w); r_page := p;
                      r_isInitial := false; r_retryCount := 0 |}] /\
  (hasMore (view w) = true -> loading (view w) = false ->
   enabled cfg = true -> current currentRequestPageRef w = None ->
   trace (step cfg LoadMore w) =
     trace w ++ [CallFetch (p + 1) (length (signals w)) 0]) /\
  (forall captured, current observerRef w = Some captured ->
   mayTrigger w = true ->
   trace (step cfg (Intersect true) w) =
     trace w ++ [CallFetch (captured + 1) (length (signals w)) 0]) /\
  (forall w0 : World T, error (view w0) = None -> step cfg RetryNow w0 = w0).
Proof.
  intros He Hp Hpass. cbn [step]. unfold retry, loadMore, bind.
  rewrite He, Hp.
  rewrite fetchWithRetry_passes, beginRequest_eq by exact Hpass. tidy.
  do 2 (split; [reflexivity |]). split; [| split].
  - intros -> -> -> Hnone. rewrite Hnone. cbn [negb andb is_null].
    rewrite fetchWithRetry_passes, beginRequest_eq; [reflexivity |].
    destruct Hpass as (H1 & H2 & _). unfold passes. rewrite Hnone.
    repeat split; trivial.
  - intros captured -> Htrig. unfold observerCallback, bind.
    rewrite Htrig. cbn [andb].
    now rewrite fetchWithRetry_passes, beginRequest_eq
      by now apply mayTrigger_passes.
  - intros w0 H0. now rewrite H0.
Qed.

End Retrying.

(** ** The statements at concrete worlds *)

(** C1, as it was written, fails: after the first attempt of the initial
    load is rejected under the options of [App.tsx], a retry timer of 1000
    is pending, yet the next render shows [loading = false] and the
    in-flight page marker is null. *)
Lemma backoff_is_not_busy :
  timers (step appConfig (Settle 0%nat (Rejected networkDown))
            (startingWorld appConfig)) =
    [{| t_id := 1; t_delay := 1000;
        t_callback := RetryTimer 0 0 true 0 |}] /\
  ~ busyDuringBackoff appConfig (startingWorld appConfig) 0 networkDown 0.
Proof.
  split; [reflexivity |].
  unfold busyDuringBackoff. vm_compute. intros [H _]. discriminate H.
Qed.

Lemma failed_attempt_backs_off_idle_witness :
  let w := startingWorld appConfig in
  let rq := {| r_signal := 0; r_page := 0; r_isInitial := true;
               r_retryCount := 0 |} in
  find_request 0 (inflight w) = Some rq /\
  aborted 0 w = false /\
  Z.of_nat (r_retryCount rq) < retryAttempts appConfig /\
  loading (st (step appConfig (Settle 0%nat (Rejected networkDown)) w))
    = false.
Proof.
  intros w rq.
  assert (H1 : find_request 0 (inflight w) = Some rq) by reflexivity.
  assert (H2 : aborted 0 w = false) by reflexivity.
  assert (H3 : Z.of_nat (r_retryCount rq) < retryAttempts appConfig)
    by (vm_compute; reflexivity).
  refine (conj H1 (conj H2 (conj H3 _))).
  exact (proj1 (proj2 (proj2
    (failed_attempt_backs_off_idle appConfig w 0%nat rq networkDown
       H1 H2 H3)))).
Defined.

Lemma cancelled_settlement_is_silent_witness :
  aborted 1 supersededWorld = true /\
  st (step appConfig (Settle 1%nat (Resolved secondPage)) supersededWorld)
    = st supersededWorld /\
  trace (step appConfig (Settle 1%nat (Resolved secondPage)) supersededWorld)
    = trace supersededWorld.
Proof.
  assert (H : aborted 1 supersededWorld = true) by reflexivity.
  split; [exact H |].
  destruct (cancelled_settlement_is_silent appConfig supersededWorld 1%nat
              (Resolved secondPage) H) as (Hst & _ & _ & _ & _ & Htr).
  split; assumption.
Defined.

Lemma always_failing_fetch_makes_three_attempts_witness :
  let w := browsingWorld twoRetries in
  let e := {| message := "Failed to fetch" |} in
  retryAttempts twoRetries = 2 /\ idle w /\ passes 1 false w /\
  fetches
    (run twoRetries
       (retryRound true 1%nat 1%nat (ThrownError e) ++
        retryRound true 2%nat 2%nat (ThrownError e) ++
        lastRound true 3%nat (Rejected (ThrownError e)))
       (fetchWithRetry 1 false 0 w)) = (fetches w + 3)%nat.
Proof.
  intros w e.
  assert (H1 : retryAttempts twoRetries = 2) by reflexivity.
  assert (H2 : idle w) by (apply browsingWorld_idle; now right).
  assert (H3 : passes 1 false w) by (vm_compute; repeat split).
  refine (conj H1 (conj H2 (conj H3 _))).
  exact (proj1 (proj2
    (always_failing_fetch_makes_three_attempts twoRetries w 1 false true
       e e e H1 H2 H3))).
Defined.

Lemma loadMore_is_noop_when_gated_witness :
  let w := loadingMoreWorld appConfig in
  (hasMore (view w) = false \/ loading (view w) = true \/
   current currentRequestPageRef w <> None) /\
  step appConfig LoadMore w = w.
Proof.
  intros w.
  assert (H : hasMore (view w) = false \/ loading (view w) = true \/
              current currentRequestPageRef w <> None)
    by (right; left; reflexivity).
  split; [exact H |].
  exact (loadMore_is_noop_when_gated appConfig w H).
Defined.

Lemma reset_restores_defaults_witness :
  let w := loadingMoreWorld appConfig in
  wellFormed w /\
  st (step appConfig ResetNow w) = initialSnapshot appConfig /\
  Forall (fun r => aborted (r_signal r) (step appConfig ResetNow w) = true)
    (inflight (step appConfig ResetNow w)).
Proof.
  intros w. pose proof loadingMoreWorld_wellFormed as H.
  split; [exact H |].
  destruct (reset_restores_defaults appConfig w false false H)
    as (Hst & _ & _ & _ & _ & _ & _ & Hin & _).
  split; assumption.
Defined.

Lemma resolved_fetch_merges_page_witness :
  let w := loadingMoreWorld appConfig in
  let rq := {| r_signal := 1; r_page := 1; r_isInitial := false;
               r_retryCount := 0 |} in
  find_request 1 (inflight w) = Some rq /\
  aborted 1 w = false /\
  data (st (step appConfig (Settle 1%nat (Resolved secondPage)) w)) =
    [1; 2; 3; 4; 5; 6]%nat.
Proof.
  intros w rq.
  assert (H1 : find_request 1 (inflight w) = Some rq) by reflexivity.
  assert (H2 : aborted 1 w = false) by reflexivity.
  refine (conj H1 (conj H2 _)).
  exact (proj1 (resolved_fetch_merges_page appConfig w 1%nat rq secondPage
                  H1 H2)).
Defined.

Lemma fetch_succeeding_on_third_attempt_witness :
  let w := browsingWorld appConfig in
  retryAttempts appConfig = 3 /\ idle w /\ passes 1 false w /\
  view
    (run appConfig
       (retryRound true 1%nat 1%nat networkDown ++
        retryRound true 2%nat 2%nat networkDown ++
        lastRound true 3%nat (Resolved secondPage))
       (fetchWithRetry 1 false 0 w)) =
  MkSnapshot [1; 2; 3; 4; 5; 6]%nat false None true false 1 (Some 30).
Proof.
  intros w.
  assert (H1 : retryAttempts appConfig = 3) by reflexivity.
  assert (H2 : idle w) by (apply browsingWorld_idle; now left).
  assert (H3 : passes 1 false w) by (vm_compute; repeat split).
  refine (conj H1 (conj H2 (conj H3 _))).
  exact (proj1 (proj2
    (fetch_succeeding_on_third_attempt appConfig w 1 false true
       networkDown networkDown secondPage H1 H2 H3))).
Defined.

Lemma refresh_matches_fresh_mount_witness :
  let w := browsingWorld appConfig in
  enabled appConfig = true /\ wellFormed w /\ mounted w = true /\
  current enabledRef w = true /\
  view
    (run appConfig
       [Refresh; Render false true; Fire (nextTimer w); Render false true;
        Settle (length (signals w)) (Resolved firstPage); Render false true]
       w) =
  view
    (run appConfig
       [Render false true; Render false true;
        Settle 0%nat (Resolved firstPage); Render false true]
       (initialWorld appConfig)).
Proof.
  intros w.
  assert (H1 : enabled appConfig = true) by reflexivity.
  assert (H2 : wellFormed w)
    by (apply idle_wf, browsingWorld_idle; now left).
  assert (H3 : mounted w = true) by reflexivity.
  assert (H4 : current enabledRef w = true) by reflexivity.
  refine (conj H1 (conj H2 (conj H3 (conj H4 _)))).
  exact (proj1 (refresh_matches_fresh_mount appConfig w true firstPage
                  H1 H2 H3 H4)).
Defined.

Lemma totalCount_survives_until_reset_witness :
  let w := loadingMoreWorld appConfig in
  totalCount (st w) <> None /\
  totalCount (st (step appConfig (Settle 1%nat (Resolved secondPage)) w)) =
    totalCount (st w).
Proof.
  intros w.
  assert (H : totalCount (st w) <> None) by (vm_compute; discriminate).
  split; [exact H |].
  exact (proj1 (proj2
    (totalCount_survives_until_reset appConfig w
       (Settle 1%nat (Resolved secondPage)) H)) 1%nat secondPage
    eq_refl eq_refl).
Defined.

(** C4, as it was written, fails: with the error of page 1 on screen and
    [currentPage = 0], [retry()] does not fetch page 1 (it fetches page 0),
    and a sighting of the sentinel starts a fetch without any [retry()]. *)
Lemma error_gates_nothing :
  error (view failedWorld) = Some {| message := "Failed to fetch" |} /\
  currentPage (view failedWorld) = 0 /\
  ~ retryRefetches twoRetries failedWorld 1 /\
  ~ noAutoResume twoRetries failedWorld.
Proof.
  split; [reflexivity |]. split; [reflexivity |]. split.
  - unfold retryRefetches. vm_compute. intros H.
    apply (f_equal (fun l => nth 8 l (CallFetch 7 0 0))) in H.
    discriminate H.
  - unfold noAutoResume. intros H.
    specialize (H (Intersect true)). vm_compute in H.
    assert (Hne : Intersect (T:=nat) true <> RetryNow) by discriminate.
    specialize (H Hne). discriminate H.
Qed.

Lemma retry_refetches_current_page_witness :
  let w := failedInitialWorld in
  let e := {| message := "Failed to fetch" |} in
  error (view w) = Some e /\ currentPage (view w) = 0 /\ passes 0 false w /\
  trace (step twoRetries RetryNow w) =
    trace w ++ [CallFetch 0 (length (signals w)) 0].
Proof.
  intros w e.
  assert (H1 : error (view w) = Some e) by reflexivity.
  assert (H2 : currentPage (view w) = 0) by reflexivity.
  assert (H3 : passes 0 false w) by (vm_compute; repeat split).
  refine (conj H1 (conj H2 (conj H3 _))).
  exact (proj1 (retry_refetches_current_page twoRetries w e 0 H1 H2 H3)).
Defined.

(** ** Well-formedness is kept by every event *)

Section PreservationOfCombinators.

Context {T : Type}.

Lemma preserves_skip : preserves (T:=T) skip.
Proof. intros w H. exact H. Qed.

Lemma preserves_seq (a b : Action T) :
  preserves a -> preserves b -> preserves (seq a b).
Proof. intros Ha Hb w H. unfold seq. auto. Qed.

Lemma preserves_when (c : bool) (a : Action T) :
  preserves a -> preserves (when c a).
Proof. intros Ha. destruct c; [exact Ha | apply preserves_skip]. Qed.

Lemma preserves_bind {B} (g : World T -> B) (k : B -> Action T) :
  (forall x, preserves (k x)) -> preserves (bind g k).
Proof. intros Hk w H. unfold bind. now apply Hk. Qed.

Lemma preserves_if (c : bool) (a b : Action T) :
  preserves a -> preserves b -> preserves (if c then a else b).
Proof. now destruct c. Qed.

End PreservationOfCombinators.

Ltac wf_steps :=
  repeat first
    [ assumption
    | match goal with
      | H : context [preserves] |- preserves _ => apply H
      end
    | match goal with
      | |- preserves skip => apply preserves_skip
      | |- preserves (seq _ _) => apply preserves_seq
      | |- preserves (when _ _) => apply preserves_when
      | |- preserves (bind _ _) => apply preserves_bind; intros ?
      | |- preserves (if _ then _ else _) => apply preserves_if
      | |- preserves (match ?x with _ => _ end) => destruct x
      end ].

Section Preservation.

Context {T : Type}.

(** Well-formedness reads only these parts of the world. *)
Lemma wellFormed_same (w w' : World T) :
  current abortControllerRef w' = current abortControllerRef w ->
  current debounceTimerRef w' = current debounceTimerRef w ->
  current loadingRef w' = current loadingRef w ->
  signals w' = signals w -> inflight w' = inflight w ->
  timers w' = timers w -> nextTimer w' = nextTimer w ->
  mounted w' = mounted w -> loading (view w') = loading (view w) ->
  wellFormed w -> wellFormed w'.
Proof.
  intros Hc Hd Hl Hs Hi Ht Hn Hm Hv [H1 H2 H3 H4 H5 H6 H7 H8].
  constructor; unfold owned, aborted in *;
    rewrite ?Hc, ?Hd, ?Hl, ?Hs, ?Hi, ?Ht, ?Hn, ?Hm, ?Hv; assumption.
Qed.

Lemma preserves_setState (f : Snapshot T -> Snapshot T) :
  preserves (setState f).
Proof. intros w. now apply wellFormed_same. Qed.

Lemma preserves_emit (c : Call T) : preserves (emit c).
Proof. intros w. now apply wellFormed_same. Qed.

Lemma preserves_assign (f : Refs -> Refs) :
  (forall r, abortControllerRef (f r) = abortControllerRef r) ->
  (forall r, debounceTimerRef (f r) = debounceTimerRef r) ->
  (forall r, loadingRef (f r) = loadingRef r) ->
  preserves (T:=T) (assign f).
Proof.
  intros Hc Hd Hl w. apply wellFormed_same; unfold assign, current; tidy;
    auto.
Qed.

Lemma preserves_document (doc : Metrics) :
  preserves (T:=T) (fun w => with_document doc w).
Proof. intros w. now apply wellFormed_same. Qed.

Lemma owned_after_abort (w : World T) (heap : list bool) (c : option nat)
    (signal : nat) :
  owned w signal ->
  (signal < length (abortIn (current abortControllerRef w) (signals w)))%nat /\
  abortIn (current abortControllerRef w) (signals w) !! signal = Some true.
Proof.
  intros Ho. pose proof (owned_aborted w signal Ho) as Ha.
  destruct Ho as [Hlt _]. rewrite length_abortIn. split; [exact Hlt |].
  destruct (abortIn _ _ !! signal) as [[|]|] eqn:E; try discriminate.
  reflexivity.
Qed.

Lemma preserves_beginRequest p i n : preserves (T:=T) (beginRequest p i n).
Proof.
  intros w [H1 H2 H3 H4 H5 H6 H7 H8]. rewrite beginRequest_eq.
  assert (Hold : forall signal, owned w signal ->
    owned (MkWorld (view w)
      ((if (0 <? n)%nat then set_isRetrying true else id)
         (set_error None (set_loading true (st w))))
      (set_abortControllerRef (Some (length (signals w)))
         ((if i then set_isInitialLoadingRef true else id)
            (set_currentRequestPageRef (Some p) (refs w))))
      (abortIn (current abortControllerRef w) (signals w) ++ [false])
      (inflight w ++ [{| r_signal := length (signals w); r_page := p;
                         r_isInitial := i; r_retryCount := n |}])
      (timers w) (nextTimer w) (mounted w) (document w)
      (trace w ++ [CallFetch p (length (signals w)) n])) signal).
  { intros signal Ho.
    destruct (owned_after_abort w (signals w) None signal Ho) as [Hlt Hab].
    unfold owned, aborted, current in *. tidy. split.
    - rewrite length_app. lia.
    - rewrite lookup_app_l by exact Hlt. rewrite Hab. discriminate. }
  destruct i; constructor; unfold current in *; tidy; trivial.
  all: try (intros c [= <-]; rewrite length_app, length_abortIn; cbn; lia).
  all: try (revert H4; apply List.Forall_impl; intros t Ht signal Hs;
            apply Hold; auto).
  all: try (apply Forall_app; split;
            [ revert H2; apply List.Forall_impl; intros r; apply Hold
            | repeat constructor; unfold owned, current; tidy;
              rewrite length_app, length_abortIn; cbn; lia ]).
  all: rewrite map_app; apply NoDup_app; (split; [exact H3 |]); split;
    [ intros x Hx [Hy | []]%list_elem_of_In; cbn in Hy; subst x;
      apply list_elem_of_In, List.in_map_iff in Hx;
      destruct Hx as (r & Hr & Hin);
      rewrite List.Forall_forall in H2; destruct (H2 r Hin) as [Hlt _]; lia
    | repeat constructor; intros []%list_elem_of_In ].
Qed.

Lemma preserves_fetchWithRetry p i n : preserves (T:=T) (fetchWithRetry p i n).
Proof.
  unfold fetchWithRetry. pose proof preserves_beginRequest. wf_steps.
Qed.

Lemma preserves_setTimeout (c : Callback) (delay : Z) (k : nat -> Action T) :
  callback_signal c = None ->
  (forall w, wellFormed w -> wellFormed (k (pred (nextTimer w)) w)) ->
  preserves (setTimeout c delay k).
Proof.
  intros Hc Hk w [H1 H2 H3 H4 H5 H6 H7 H8].
  unfold setTimeout, bind, seq, emit.
  match goal with |- wellFormed (k ?id ?x) =>
    change id with (pred (nextTimer x)); apply Hk end.
  constructor; unfold owned, aborted, current in *; tidy; trivial.
  - apply Forall_app; split; [exact H4 |].
    constructor; [| constructor]. intros signal Hs. cbn in Hs. congruence.
  - apply Forall_app; split.
    + revert H5. apply List.Forall_impl. intros t Ht. lia.
    + repeat constructor; cbn; lia.
  - lia.
  - intros id Hid. specialize (H7 id Hid). lia.
Qed.

Lemma preserves_clearTimeout (id : nat) : preserves (T:=T) (clearTimeout id).
Proof.
  intros w [H1 H2 H3 H4 H5 H6 H7 H8].
  constructor; unfold clearTimeout, owned, aborted, current in *; tidy;
    trivial.
  - apply List.Forall_forall. intros t [Ht _]%List.filter_In.
    rewrite List.Forall_forall in H4. exact (H4 t Ht).
  - apply List.Forall_forall. intros t [Ht _]%List.filter_In.
    rewrite List.Forall_forall in H5. exact (H5 t Ht).
Qed.

Variable cfg : Config.

Lemma wellFormed_resume rq o (w : World T) :
  wellFormed w -> owned w (r_signal rq) -> wellFormed (resume cfg rq o w).
Proof.
  intros Hwf Hown.
  destruct (aborted (r_signal rq) w) eqn:Ha;
    [now rewrite resume_aborted |].
  destruct o as [result | err].
  - rewrite resume_resolved by exact Ha. revert Hwf.
    apply wellFormed_same; unfold current; tidy; trivial;
      now destruct (r_isInitial rq).
  - destruct (Z.ltb_spec (Z.of_nat (r_retryCount rq)) (retryAttempts cfg)).
    + rewrite resume_retry by trivial.
      destruct Hwf as [H1 H2 H3 H4 H5 H6 H7 H8].
      destruct (r_isInitial rq);
        constructor; unfold owned, aborted, current in *; tidy; trivial.
      all: try (apply Forall_app; split; [exact H4 |];
                constructor; [| constructor]; intros signal [= <-];
                exact Hown).
      all: try (apply Forall_app; split;
                [ revert H5; apply List.Forall_impl; intros t Ht; lia
                | repeat constructor; cbn; lia ]).
      all: try lia.
      all: intros id Hid; specialize (H7 id Hid); lia.
    + rewrite resume_exhausted by trivial. revert Hwf.
      apply wellFormed_same; unfold current; tidy; trivial;
        now destruct (r_isInitial rq).
Qed.

Lemma NoDup_map_filter {A B} (f : A -> B) (g : A -> bool) (l : list A) :
  NoDup (map f l) -> NoDup (map f (List.filter g l)).
Proof.
  induction l as [|x l IH]; [trivial |].
  cbn. intros [Hx Hl]%NoDup_cons. destruct (g x); [| auto].
  cbn. apply NoDup_cons. split; [| auto].
  intros Hin. apply Hx.
  apply list_elem_of_In, List.in_map_iff in Hin.
  destruct Hin as (y & Hy & [Hyl _]%List.filter_In).
  apply list_elem_of_In, List.in_map_iff. eauto.
Qed.

Lemma preserves_settle (signal : nat) (o : Outcome T) :
  preserves (step cfg (Settle signal o)).
Proof.
  intros w Hwf.
  destruct (find_request signal (inflight w)) as [rq|] eqn:Hf;
    [| now rewrite settle_missing].
  rewrite (settle_found cfg _ _ _ _ Hf).
  pose proof Hf as Hin. apply List.find_some in Hin. destruct Hin as [Hin _].
  destruct Hwf as [H1 H2 H3 H4 H5 H6 H7 H8].
  apply wellFormed_resume.
  - constructor; unfold owned, aborted, current in *; tidy; trivial.
    + apply List.Forall_forall. intros r [Hr _]%List.filter_In.
      rewrite List.Forall_forall in H2. exact (H2 r Hr).
    + now apply NoDup_map_filter.
  - rewrite List.Forall_forall in H2. exact (H2 rq Hin).
Qed.

Lemma preserves_reset : preserves (T:=T) (reset cfg).
Proof.
  intros w [H1 H2 H3 H4 H5 H6 H7 H8]. rewrite reset_eq.
  assert (Hold : forall signal, owned w signal ->
    (signal < length (abortIn (abortControllerRef (refs w)) (signals w)))%nat
    /\ (match abortIn (abortControllerRef (refs w)) (signals w) !! signal
         with Some b => b | None => false end = false ->
        abortControllerRef (refs w) = Some signal)).
  { intros signal Ho.
    destruct (owned_after_abort w (signals w) None signal Ho) as [Hlt Hab].
    unfold current in *. split; [exact Hlt |]. rewrite Hab. discriminate. }
  assert (Hkeep : forall (P : Timer -> Prop),
    Forall P (timers w) ->
    Forall P (match debounceTimerRef (refs w) with
              | Some id =>
                  if truthy (Some id)
                  then List.filter (fun t => negb (Nat.eqb (t_id t) id))
                         (timers w)
                  else timers w
              | None => timers w
              end)).
  { intros P HP. destruct (debounceTimerRef (refs w)) as [id|]; [| exact HP].
    destruct (truthy (Some id)); [| exact HP].
    apply List.Forall_forall. intros t [Ht _]%List.filter_In.
    rewrite List.Forall_forall in HP. exact (HP t Ht). }
  constructor; unfold owned, aborted, current in *; tidy; trivial.
  - intros c Hc. rewrite length_abortIn. auto.
  - revert H2. apply List.Forall_impl. intros r. apply Hold.
  - apply Hkeep. revert H4. apply List.Forall_impl.
    intros t Ht signal Hs. apply Hold. auto.
  - apply Hkeep. exact H5.
Qed.

Lemma preserves_refresh : preserves (T:=T) (refresh cfg).
Proof.
  unfold refresh. apply preserves_seq; [apply preserves_reset |].
  apply preserves_setTimeout; [reflexivity |].
  intros w Hw. exact Hw.
Qed.

Lemma preserves_debouncedScrollHandler (capturedPage : Z) :
  preserves (T:=T) (debouncedScrollHandler cfg capturedPage).
Proof.
  unfold debouncedScrollHandler. apply preserves_bind. intros handle.
  apply preserves_seq.
  - destruct handle; [| apply preserves_skip].
    apply preserves_when, preserves_clearTimeout.
  - intros w [H1 H2 H3 H4 H5 H6 H7 H8].
    unfold setTimeout, bind, seq, emit, assign.
    constructor; unfold owned, aborted, current in *; tidy; trivial.
    + apply Forall_app; split; [exact H4 |].
      constructor; [| constructor]. intros signal Hs. cbn in Hs. congruence.
    + apply Forall_app; split.
      * revert H5. apply List.Forall_impl. intros t Ht. lia.
      * repeat constructor; cbn; lia.
    + lia.
    + intros id [= <-]. lia.
Qed.

Lemma preserves_runCallback (c : Callback) :
  preserves (T:=T) (runCallback cfg c).
Proof.
  pose proof preserves_fetchWithRetry.
  unfold runCallback, scrollTimer. wf_steps.
Qed.

Lemma preserves_initialLoadEffect (v : Snapshot T) :
  preserves (initialLoadEffect cfg v).
Proof.
  pose proof (preserves_fetchWithRetry (initialPage cfg) true 0).
  pose proof (preserves_assign (set_initialLoadRef true)
                (fun _ => eq_refl) (fun _ => eq_refl) (fun _ => eq_refl)).
  unfold initialLoadEffect. wf_steps.
Qed.

Lemma preserves_observerEffect (v : Snapshot T) :
  preserves (observerEffect v).
Proof.
  unfold observerEffect. apply preserves_bind. intros attached.
  destruct attached; now apply preserves_assign.
Qed.

(** The commit itself and the effect that copies [loading] into
    [loadingRef]. *)
Lemma wellFormed_commit (w : World T) :
  wellFormed w ->
  wellFormed
    (when (negb (mounted w) ||
           negb (eqb (loading (view w)) (loading (st w))))
       (assign (set_loadingRef (loading (st w))))
       (with_mounted true (with_view (st w) w))).
Proof.
  intros [H1 H2 H3 H4 H5 H6 H7 H8].
  destruct (mounted w) eqn:Hm; cbn [negb orb].
  - specialize (H8 eq_refl).
    destruct (eqb (loading (view w)) (loading (st w))) eqn:He;
      cbn [negb when]; unfold assign, skip;
      constructor; unfold owned, aborted, current in *; tidy; trivial.
    apply eqb_prop in He. congruence.
  - cbn [when]. unfold assign.
    constructor; unfold owned, aborted, current in *; tidy; trivial.
Qed.

Lemma preserves_render depsChanged fn :
  preserves (T:=T) (render cfg depsChanged fn).
Proof.
  intros w Hwf. unfold render, bind, seq.
  apply preserves_when; [apply preserves_initialLoadEffect |].
  apply preserves_when; [apply preserves_observerEffect |].
  apply preserves_when; [apply preserves_reset |].
  apply preserves_when; [now apply preserves_assign |].
  apply preserves_when; [now apply preserves_assign |].
  now apply wellFormed_commit.
Qed.

Lemma wellFormed_initialWorld : wellFormed (initialWorld (T:=T) cfg).
Proof.
  constructor; cbn; try constructor; try discriminate; lia.
Qed.

Lemma preserves_step (ev : Event (T:=T)) : preserves (step cfg ev).
Proof.
  pose proof preserves_fetchWithRetry as Hf.
  destruct ev as [d fn | | | | | a | i | doc | h | id | signal o].
  - apply preserves_render.
  - cbn [step]. unfold loadMore. wf_steps.
  - cbn [step]. unfold retry. wf_steps.
  - apply preserves_reset.
  - apply preserves_refresh.
  - cbn [step]. now apply preserves_assign.
  - cbn [step]. unfold observerCallback. wf_steps.
  - cbn [step]. apply preserves_seq; [apply preserves_document |].
    pose proof preserves_debouncedScrollHandler. wf_steps.
  - cbn [step]. unfold handleVisibilityChange.
    apply preserves_bind. intros m. apply preserves_when.
    destruct h; now apply preserves_assign.
  - cbn [step]. pose proof preserves_clearTimeout.
    pose proof preserves_runCallback. wf_steps.
  - apply preserves_settle.
Qed.

Lemma NoDup_map_eq {A B} (f : A -> B) (l : list A) (x y : A) :
  NoDup (map f l) -> In x l -> In y l -> f x = f y -> x = y.
Proof.
  induction l as [|z l IH]; [intros _ [] |].
  cbn. intros [Hz Hl]%NoDup_cons [-> | Hx] [-> | Hy] Hxy; trivial.
  - exfalso. apply Hz. rewrite Hxy.
    apply list_elem_of_In, List.in_map. exact Hy.
  - exfalso. apply Hz. rewrite <- Hxy.
    apply list_elem_of_In, List.in_map. exact Hx.
  - auto.
Qed.

End Preservation.

Section Reachable.

Context {T : Type}.
Variable cfg : Config.

Lemma wellFormed_run (evs : list (Event (T:=T))) (w : World T) :
  wellFormed w -> wellFormed (run cfg evs w).
Proof.
  revert w. induction evs as [|ev evs IH]; intros w Hw; [exact Hw |].
  cbn [run]. unfold seq. apply IH. now apply preserves_step.
Qed.

(** Every world the hook can reach from its first render is well formed:
    signals held by parked requests and retry timers are in the heap and
    all but the one in [abortControllerRef] are aborted, parked requests
    hold distinct signals, timer ids are positive and below the next id,
    and after mounting [loadingRef] equals the rendered [loading]. *)
Theorem reachable_wellFormed (evs : list (Event (T:=T))) :
  wellFormed (run cfg evs (initialWorld (T:=T) cfg)).
Proof.
  apply wellFormed_run, wellFormed_initialWorld.
Qed.

(** At most one request is outstanding: in every reachable world two
    parked requests whose signals are not aborted are the same request,
    and it holds the signal of [abortControllerRef]. *)
Theorem reachable_one_live_request (evs : list (Event (T:=T)))
    (r1 r2 : Request) :
  let w := run cfg evs (initialWorld (T:=T) cfg) in
  In r1 (inflight w) -> In r2 (inflight w) ->
  aborted (r_signal r1) w = false -> aborted (r_signal r2) w = false ->
  r1 = r2 /\ current abortControllerRef w = Some (r_signal r1).
Proof.
  intros w H1 H2 Ha1 Ha2.
  destruct (wellFormed_run evs _ (wellFormed_initialWorld (T:=T) cfg))
    as [_ Hin Hnd _ _ _ _ _].
  fold w in Hin, Hnd. rewrite List.Forall_forall in Hin.
  destruct (Hin r1 H1) as [_ Hc1]. destruct (Hin r2 H2) as [_ Hc2].
  specialize (Hc1 Ha1). specialize (Hc2 Ha2). split; [| exact Hc1].
  apply (NoDup_map_eq r_signal (inflight w)); trivial. congruence.
Qed.

End Reachable.

(** ** A disabled or hidden component *)

Section Stability.

Context {T : Type}.
Variable I : World T -> Prop.

Lemma stable_skip : stable I skip.
Proof. intros w H. exact H. Qed.

Lemma stable_seq (a b : Action T) : stable I a -> stable I b -> stable I (seq a b).
Proof. intros Ha Hb w H. unfold seq. auto. Qed.

Lemma stable_when (c : bool) (a : Action T) : stable I a -> stable I (when c a).
Proof. intros Ha. destruct c; [exact Ha | apply stable_skip]. Qed.

Lemma stable_bind {B} (g : World T -> B) (k : B -> Action T) :
  (forall x, stable I (k x)) -> stable I (bind g k).
Proof. intros Hk w H. unfold bind. now apply Hk. Qed.

Lemma stable_if (c : bool) (a b : Action T) :
  stable I a -> stable I b -> stable I (if c then a else b).
Proof. now destruct c. Qed.

End Stability.

Ltac stable_steps :=
  repeat first
    [ assumption
    | match goal with
      | H : context [stable] |- stable _ _ => apply H
      end
    | match goal with
      | |- stable _ skip => apply stable_skip
      | |- stable _ (seq _ _) => apply stable_seq
      | |- stable _ (when _ _) => apply stable_when
      | |- stable _ (bind _ _) => apply stable_bind; intros ?
      | |- stable _ (if _ then _ else _) => apply stable_if
      | |- stable _ (match ?x with _ => _ end) => destruct x
      end ].

Section Paused.

Context {T : Type}.
Variable cfg : Config.
Variable n : nat.

Lemma paused_same (w w' : World T) :
  current enabledRef w' = current enabledRef w ->
  fetches w' = fetches w ->
  paused n w -> paused n w'.
Proof. unfold paused. intros -> ->. trivial. Qed.

Lemma fetches_snoc (w : World T) (tr : list (Call T)) (c : Call T) :
  (forall p s k, c <> CallFetch p s k) ->
  length (List.filter
    (fun c => match c with CallFetch _ _ _ => true | _ => false end)
    (tr ++ [c])) =
  length (List.filter
    (fun c => match c with CallFetch _ _ _ => true | _ => false end) tr).
Proof.
  intros Hc. rewrite List.filter_app, length_app.
  destruct c; cbn; try lia. now destruct (Hc page signal retryCount).
Qed.

Lemma paused_fetchWithRetry p i k : stable (paused n) (fetchWithRetry (T:=T) p i k).
Proof.
  intros w [He Hf]. rewrite fetchWithRetry_returns; [now split |].
  left. now rewrite He.
Qed.

Lemma paused_setState (f : Snapshot T -> Snapshot T) :
  stable (paused n) (setState f).
Proof. intros w. now apply paused_same. Qed.

Lemma paused_assign (f : Refs -> Refs) :
  (forall r, enabledRef (f r) = enabledRef r) ->
  stable (paused (T:=T) n) (assign f).
Proof.
  intros Hf w. apply paused_same; [| reflexivity].
  unfold assign, current. tidy. apply Hf.
Qed.

Lemma paused_disable : stable (paused (T:=T) n) (assign (set_enabledRef false)).
Proof. intros w [_ Hf]. split; [reflexivity | exact Hf]. Qed.

Lemma paused_clearTimeout (id : nat) :
  stable (paused (T:=T) n) (clearTimeout id).
Proof. intros w. now apply paused_same. Qed.

Lemma paused_setTimeout (c : Callback) (delay : Z) (k : nat -> Action T) :
  (forall id, stable (paused n) (k id)) ->
  stable (paused n) (setTimeout c delay k).
Proof.
  intros Hk w Hw. unfold setTimeout, bind, seq. apply Hk.
  revert Hw. apply paused_same; [reflexivity |].
  unfold fetches, emit. tidy. now apply fetches_snoc.
Qed.

Lemma paused_reset : stable (paused (T:=T) n) (reset cfg).
Proof. intros w. rewrite reset_eq. now apply paused_same. Qed.

Lemma paused_resume rq o : stable (paused (T:=T) n) (resume cfg rq o).
Proof.
  intros w Hw.
  destruct (aborted (r_signal rq) w) eqn:Ha;
    [now rewrite resume_aborted |].
  destruct o as [result | err].
  - rewrite resume_resolved by exact Ha. revert Hw.
    apply paused_same; unfold fetches, current; tidy.
    + now destruct (r_isInitial rq).
    + destruct (onSuccess cfg); [| now rewrite app_nil_r].
      now apply fetches_snoc.
  - destruct (Z.ltb_spec (Z.of_nat (r_retryCount rq)) (retryAttempts cfg)).
    + rewrite resume_retry by trivial. revert Hw.
      apply paused_same; unfold fetches, current; tidy.
      * now destruct (r_isInitial rq).
      * now apply fetches_snoc.
    + rewrite resume_exhausted by trivial. revert Hw.
      apply paused_same; unfold fetches, current; tidy.
      * now destruct (r_isInitial rq).
      * destruct (onError cfg); [| now rewrite app_nil_r].
        now apply fetches_snoc.
Qed.

Lemma paused_enable :
  enabled cfg = false ->
  stable (paused (T:=T) n) (assign (set_enabledRef (enabled cfg))).
Proof. intros ->. apply paused_disable. Qed.

Lemma paused_render depsChanged fn (w : World T) :
  mounted w = true \/ enabled cfg = false ->
  paused n w -> paused n (render cfg depsChanged fn w).
Proof.
  intros Hm Hw.
  pose proof paused_fetchWithRetry as Hf.
  pose proof (paused_assign (set_initialLoadRef true) (fun _ => eq_refl))
    as Hl.
  unfold render, bind, seq.
  apply stable_when; [unfold initialLoadEffect; stable_steps |].
  apply stable_when;
    [unfold observerEffect; apply stable_bind; intros [|];
     now apply paused_assign |].
  apply stable_when; [apply paused_reset |].
  assert (Hc : paused n (with_mounted true (with_view (st w) w)))
    by (revert Hw; now apply paused_same).
  destruct Hm as [Hm | Hm].
  - rewrite Hm. cbn [negb orb]. rewrite when_false.
    apply stable_when; [now apply paused_assign |].
    apply stable_when; [now apply paused_assign |]. exact Hc.
  - apply stable_when; [now apply paused_enable |].
    apply stable_when; [now apply paused_assign |].
    apply stable_when; [now apply paused_assign |]. exact Hc.
Qed.

Lemma paused_event (ev : Event (T:=T)) :
  enabled cfg = false \/ (forall hidden, ev <> VisibilityChange hidden) ->
  (forall depsChanged fn, ev <> Render depsChanged fn) ->
  stable (paused n) (step cfg ev).
Proof.
  intros Hev Hnr.
  pose proof paused_fetchWithRetry as Hf.
  pose proof paused_reset as Hr.
  pose proof paused_clearTimeout as Hc.
  destruct ev as [d fn | | | | | a | i | doc | h | id | signal o];
    cbn [step].
  - now destruct (Hnr d fn).
  - unfold loadMore. stable_steps.
  - unfold retry. stable_steps.
  - exact Hr.
  - unfold refresh. apply stable_seq; [exact Hr |].
    apply paused_setTimeout. intros _. apply stable_skip.
  - now apply paused_assign.
  - unfold observerCallback. stable_steps.
  - apply stable_seq; [intros w; now apply paused_same |].
    apply stable_bind; intros m. apply stable_bind; intros v.
    apply stable_when. unfold debouncedScrollHandler.
    apply stable_bind; intros handle. apply stable_seq.
    + destruct handle; [apply stable_when, Hc | apply stable_skip].
    + apply paused_setTimeout. intros id0. now apply paused_assign.
  - apply stable_bind; intros m. apply stable_when.
    unfold handleVisibilityChange. destruct h; [apply paused_disable |].
    destruct Hev as [Hev | Hev]; [now apply paused_enable |].
    now destruct (Hev false).
  - apply stable_bind; intros ts.
    destruct (find_timer id ts) as [t|]; [| apply stable_skip].
    apply stable_seq; [apply Hc |].
    unfold runCallback, scrollTimer. stable_steps.
  - apply stable_bind; intros rs.
    destruct (find_request signal rs) as [rq|]; [| apply stable_skip].
    apply stable_seq; [intros w; now apply paused_same |].
    apply paused_resume.
Qed.

(** In a paused component every event but a change of visibility leaves
    it paused: nothing is fetched.  A first render keeps it paused when
    the [enabled] option is false. *)
Lemma paused_step (ev : Event (T:=T)) (w : World T) :
  mounted w = true \/ enabled cfg = false ->
  enabled cfg = false \/ (forall hidden, ev <> VisibilityChange hidden) ->
  paused n w -> paused n (step cfg ev w).
Proof.
  intros Hm Hev Hw. destruct ev as [d fn | | | | | a | i | doc | h | id | signal o];
    try (apply paused_event; [exact Hev | discriminate | exact Hw]).
  now apply paused_render.
Qed.

End Paused.

Section Pausing.

Context {T : Type}.
Variable cfg : Config.

Lemma mounted_fetchWithRetry p i n : keeps (T:=T) mounted (fetchWithRetry p i n).
Proof.
  unfold fetchWithRetry, beginRequest, newAbortController, awaitFetchData,
    abortCurrent, setLoading, setError, setIsRetrying. frame.
Qed.

Lemma mounted_resume rq o : keeps (T:=T) mounted (resume cfg rq o).
Proof.
  intros w. destruct (aborted (r_signal rq) w) eqn:Ha;
    [now rewrite resume_aborted |].
  destruct o as [result | err]; [now rewrite resume_resolved |].
  destruct (Z.ltb_spec (Z.of_nat (r_retryCount rq)) (retryAttempts cfg));
    [now rewrite resume_retry | now rewrite resume_exhausted].
Qed.

(** A mounted component stays mounted (unmounting is not an event). *)
Lemma mounted_step (ev : Event (T:=T)) (w : World T) :
  mounted w = true -> mounted (step cfg ev w) = true.
Proof.
  intros Hm.
  pose proof (mounted_fetchWithRetry) as Hf.
  pose proof (mounted_resume) as Hr.
  assert (Hreset : keeps (T:=T) mounted (reset cfg))
    by (intros x; now rewrite reset_eq).
  destruct ev as [d fn | | | | | a | i | doc | h | id | signal o].
  - cbn [step]. unfold render, bind, seq.
    assert (Hfx : keeps (T:=T) mounted (initialLoadEffect cfg (st w)))
      by (unfold initialLoadEffect; frame).
    repeat (rewrite keeps_when; [| unfold observerEffect; frame]).
    reflexivity.
  - rewrite <- Hm. cbn [step]. generalize w.
    change (keeps (T:=T) mounted (loadMore cfg)). unfold loadMore. frame.
  - rewrite <- Hm. cbn [step]. generalize w.
    change (keeps (T:=T) mounted retry). unfold retry. frame.
  - rewrite <- Hm. apply Hreset.
  - rewrite <- Hm. cbn [step]. now rewrite refresh_eq.
  - exact Hm.
  - rewrite <- Hm. cbn [step]. generalize w.
    match goal with |- forall w, mounted (?a w) = mounted w =>
      change (keeps (T:=T) mounted a) end.
    unfold observerCallback. frame.
  - rewrite <- Hm. cbn [step]. generalize w.
    match goal with |- forall w, mounted (?a w) = mounted w =>
      change (keeps (T:=T) mounted a) end.
    unfold debouncedScrollHandler, setTimeout, clearTimeout. frame.
  - rewrite <- Hm. cbn [step]. generalize w.
    match goal with |- forall w, mounted (?a w) = mounted w =>
      change (keeps (T:=T) mounted a) end.
    unfold handleVisibilityChange. frame.
  - rewrite <- Hm. cbn [step]. generalize w.
    match goal with |- forall w, mounted (?a w) = mounted w =>
      change (keeps (T:=T) mounted a) end.
    unfold runCallback, scrollTimer, clearTimeout. frame.
  - rewrite <- Hm. cbn [step]. generalize w.
    match goal with |- forall w, mounted (?a w) = mounted w =>
      change (keeps (T:=T) mounted a) end.
    frame.
Qed.

(** A hook whose [enabled] option is false never calls [fetchData],
    whatever the environment does: renders, manual triggers, scrolling,
    sightings of the sentinel, timers, visibility changes. *)
Theorem disabled_hook_never_fetches (evs : list (Event (T:=T))) :
  enabled cfg = false ->
  fetches (run cfg evs (initialWorld cfg)) = 0%nat.
Proof.
  intros Hen.
  assert (H0 : paused 0 (initialWorld (T:=T) cfg))
    by (split; [exact Hen | reflexivity]).
  revert H0. generalize (initialWorld (T:=T) cfg).
  induction evs as [|ev evs IH]; intros w Hw; [apply Hw |].
  cbn [run]. unfold seq. apply IH.
  apply paused_step; auto.
Qed.

(** While the tab is hidden nothing is fetched: after the visibility
    handler saw [document.hidden], no sequence of events without another
    visibility change calls [fetchData]; when the tab shows again
    [enabledRef] is set back to the [enabled] option. *)
Theorem hidden_tab_fetches_nothing (w : World T) (evs : list (Event (T:=T))) :
  mounted w = true ->
  Forall (fun ev => forall hidden, ev <> VisibilityChange hidden) evs ->
  let w' := run cfg evs (step cfg (VisibilityChange true) w) in
  fetches w' = fetches w /\
  current enabledRef w' = false /\
  current enabledRef (step cfg (VisibilityChange false) w') = enabled cfg.
Proof.
  intros Hm Hevs w'.
  assert (Hp : paused (fetches w) (step cfg (VisibilityChange true) w) /\
               mounted (step cfg (VisibilityChange true) w) = true).
  { cbn [step]. unfold bind. rewrite Hm. now split. }
  assert (Hall : paused (fetches w) w' /\ mounted w' = true).
  { subst w'. revert Hp. generalize (step cfg (VisibilityChange true) w).
    induction Hevs as [|ev evs Hev _ IH]; intros x [Hx Hmx]; [now split |].
    cbn [run]. unfold seq. apply IH. split.
    - apply paused_step; auto.
    - now apply mounted_step. }
  destruct Hall as [[He Hf] Hm']. repeat split; trivial.
  cbn [step]. unfold bind. now rewrite Hm'.
Qed.

(** A retry that comes due while the tab is hidden is dropped: the timer
    is consumed, [fetchData] is not called, and the load is left neither
    loading nor failed, with no request and no timer of its own. *)
Theorem retry_due_while_hidden_is_dropped (w : World T) (rq : Request)
    (id : nat) (s : Snapshot T) (rqs : list Request) (tms : list Timer)
    (tr : list (Call T)) :
  backingOff cfg rq id s rqs tms tr w ->
  let w' := run cfg [VisibilityChange true; Fire id] w in
  timers w' = tms /\ inflight w' = rqs /\ trace w' = tr /\
  loading (st w') = false /\ error (st w') = None /\
  current currentRequestPageRef w' = None.
Proof.
  intros [Hm He Hla Hh Hl Hc Hi Ho Ht Hti Hnt Hs Hmk Hin Hst Htr] w'.
  subst w'. unfold run, seq, skip.
  set (h := step cfg (VisibilityChange true) w).
  assert (Hh' : h = with_refs (set_enabledRef false (refs w)) w)
    by (subst h; cbn [step]; unfold bind; now rewrite Hm).
  rewrite (fire_parked cfg id _ tms h)
    by (rewrite ?Hh'; first [exact Ht | reflexivity | exact Hti]).
  unfold runCallback, bind. tidy. rewrite Hh'.
  replace (aborted (r_signal rq)
             (with_timers tms (with_refs (set_enabledRef false (refs w)) w)))
    with false by (symmetry; exact Hl).
  rewrite fetchWithRetry_returns by (left; reflexivity).
  unfold current. tidy. rewrite Hst. repeat split; trivial.
Qed.

End Pausing.

(** ** Any number of retries *)

Section Exhaustion.

Context {T : Type}.
Variable cfg : Config.

Lemma fetches_app (w w' : World T) (tr : list (Call T)) :
  trace w' = trace w ++ tr ->
  fetches w' = (fetches w + length (List.filter
    (fun c => match c with CallFetch _ _ _ => true | _ => false end) tr))%nat.
Proof. unfold fetches. intros ->. now rewrite List.filter_app, length_app. Qed.

Lemma timeouts_app (w w' : World T) (tr : list (Call T)) :
  trace w' = trace w ++ tr ->
  timeouts w' = timeouts w ++
    flat_map (fun c => match c with
                       | CallSetTimeout _ delay => [delay]
                       | _ => []
                       end) tr.
Proof. unfold timeouts. intros ->. now rewrite flat_map_app. Qed.

Lemma retry_rounds fn (errs : list Thrown) :
  forall rq id s rqs tms (w : World T),
  awaiting rq id s rqs tms (trace w) w ->
  current initialLoadRef w = true ->
  Z.of_nat (r_retryCount rq + length errs) <= retryAttempts cfg ->
  let w' := run cfg (retryRounds fn (r_signal rq) id errs) w in
  exists s',
    awaiting
      {| r_signal := r_signal rq + length errs; r_page := r_page rq;
         r_isInitial := r_isInitial rq;
         r_retryCount := r_retryCount rq + length errs |}
      (id + length errs) s' rqs tms (trace w') w' /\
    current initialLoadRef w' = true /\
    set_isRetrying false s' = set_isRetrying false s /\
    fetches w' = (fetches w + length errs)%nat /\
    timeouts w' = timeouts w ++
      map (fun k => retryDelay cfg * 2 ^ Z.of_nat (r_retryCount rq + k))
        (List.seq 0 (length errs)).
Proof.
  induction errs as [|err errs IH]; intros rq id s rqs tms w Haw Hl Hn w'.
  - subst w'. cbn [retryRounds run length List.seq map]. unfold skip.
    exists s. rewrite !Nat.add_0_r, app_nil_r. destruct rq. auto.
  - subst w'. cbn [retryRounds length] in *. rewrite run_app.
    destruct (retry_round cfg fn err _ _ _ _ _ _ _ Haw Hl) as [Haw1 Hl1];
      [lia |].
    set (w1 := run cfg (retryRound fn (r_signal rq) id err) w) in *.
    assert (Htr : trace w1 = trace w ++
      [CallSetTimeout id (retryDelay cfg * 2 ^ Z.of_nat (r_retryCount rq));
       CallFetch (r_page rq) (S (r_signal rq)) (r_retryCount rq + 1)])
      by apply Haw1.
    rewrite <- Htr in Haw1.
    destruct (IH _ _ _ _ _ w1 Haw1 Hl1) as (s' & Haw2 & Hl2 & Hs & Hf & Ht).
    { cbn [r_retryCount]. lia. }
    cbn [r_signal r_page r_isInitial r_retryCount] in *.
    exists s'.
    replace (r_signal rq + S (length errs))%nat
      with (S (r_signal rq) + length errs)%nat by lia.
    replace (r_retryCount rq + S (length errs))%nat
      with (r_retryCount rq + 1 + length errs)%nat by lia.
    replace (id + S (length errs))%nat with (S id + length errs)%nat by lia.
    split; [exact Haw2 |]. split; [exact Hl2 |]. split; [now rewrite Hs |].
    split.
    + rewrite Hf, (fetches_app w w1 _ Htr). cbn. lia.
    + rewrite Ht, (timeouts_app w w1 _ Htr). cbn [flat_map app List.seq map].
      rewrite <- List.app_assoc. cbn [app]. rewrite Nat.add_0_r.
      do 2 f_equal. rewrite <- List.seq_shift, List.map_map.
      apply List.map_ext. intros k. do 3 f_equal. lia.
Qed.

(** With [retryAttempts = n] and a fetch that rejects every time, one load
    started in an idle component calls [fetchData] exactly [n + 1] times;
    the [k]-th retry timer is set for [retryDelay * 2 ^ k]; at the end
    [error] holds the last rejection as an [Error], [loading] and
    [isRetrying] are false, the items are untouched and nothing of the
    load is left parked. *)
Theorem failing_fetch_exhausts_retries (w : World T) (p : Z)
    (isInitial fn : bool) (errs : list Thrown) (last : Thrown) :
  idle w -> passes p isInitial w ->
  retryAttempts cfg = Z.of_nat (length errs) ->
  let w' :=
    run cfg
      (retryRounds fn (length (signals w)) (nextTimer w) errs ++
       lastRound fn (length (signals w) + length errs) (Rejected last))
      (fetchWithRetry p isInitial 0 w) in
  fetches w' = (fetches w + length errs + 1)%nat /\
  timeouts w' = timeouts w ++
    map (fun k => retryDelay cfg * 2 ^ Z.of_nat k)
      (List.seq 0 (length errs)) /\
  error (view w') = Some (toError last) /\
  loading (view w') = false /\ isRetrying (view w') = false /\
  data (view w') = data (st w) /\
  st w' = view w' /\ inflight w' = inflight w /\ timers w' = timers w.
Proof.
  intros Hidle Hp Hn w'. subst w'.
  destruct (load_begins p isInitial w Hidle Hp) as [Haw Hl].
  set (w0 := fetchWithRetry p isInitial 0 w) in *.
  assert (Htr0 : trace w0 = trace w ++ [CallFetch p (length (signals w)) 0])
    by apply Haw.
  rewrite <- Htr0 in Haw. rewrite run_app.
  destruct (retry_rounds fn errs _ _ _ _ _ w0 Haw Hl)
    as (s' & Haw1 & Hl1 & Hs & Hf & Ht).
  { cbn [r_retryCount]. lia. }
  cbn [r_signal r_page r_isInitial r_retryCount] in *.
  set (w1 := run cfg (retryRounds fn (length (signals w)) (nextTimer w) errs)
               w0) in *.
  destruct (exhausted_round cfg fn last _ _ _ _ _ _ _ Haw1 Hl1)
    as (Hv & Hst & Htr & Hin & Htm & _).
  { cbn [r_retryCount]. lia. }
  cbn [r_signal r_page r_isInitial r_retryCount] in *.
  set (w2 := run cfg _ w1) in *.
  assert (Hfinal : set_loading false (set_isRetrying false
                     (set_error (Some (toError last)) s')) =
                   set_loading false (set_isRetrying false
                     (set_error (Some (toError last)) (st w)))).
  { apply (f_equal (set_error (Some (toError last)))) in Hs.
    apply (f_equal (set_loading false)) in Hs. exact Hs. }
  rewrite Hfinal in Hv, Hst.
  split; [| split].
  - rewrite (fetches_app w1 w2 _ Htr), Hf, (fetches_app w w0 _ Htr0).
    destruct (onError cfg); cbn; lia.
  - rewrite (timeouts_app w1 w2 _ Htr), Ht, (timeouts_app w w0 _ Htr0).
    destruct (onError cfg); cbn; now rewrite !app_nil_r.
  - rewrite Hv, Hst, Hin, Htm. repeat split.
Qed.

End Exhaustion.

(** ** Triggers and the dedup gate *)

Section Triggers.

Context {T : Type}.
Variable cfg : Config.

Lemma fetchWithRetry_cases p i n (w : World T) :
  fetchWithRetry p i n w = w \/
  (passes p i w /\ fetchWithRetry p i n w = beginRequest p i n w).
Proof.
  unfold fetchWithRetry, passes, bind, skip.
  destruct (current enabledRef w), (current loadingRef w); cbn; auto.
  destruct (is_page _ _ && negb i) eqn:E1; auto.
  destruct (i && current isInitialLoadingRef w) eqn:E2; auto.
  right. repeat split; trivial.
Qed.

Lemma trigger_cases (ev : Event (T:=T)) (w : World T) :
  isTrigger ev = true ->
  step cfg ev w = w \/
  exists p, passes p false w /\ step cfg ev w = beginRequest p false 0 w.
Proof.
  destruct ev; try discriminate; intros _; cbn [step];
    unfold loadMore, observerCallback, bind, skip.
  - destruct (_ && _); [| now left].
    destruct (fetchWithRetry_cases (currentPage (view w) + 1) false 0 w)
      as [H | H]; [now left | right; eauto].
  - destruct (current observerRef w) as [capturedPage|]; [| now left].
    destruct (_ && _); [| now left].
    destruct (fetchWithRetry_cases (capturedPage + 1) false 0 w)
      as [H | H]; [now left | right; eauto].
Qed.

Lemma trigger_blocked (ev : Event (T:=T)) (w : World T) :
  isTrigger ev = true ->
  current currentRequestPageRef w <> None ->
  step cfg ev w = w.
Proof.
  destruct ev; try discriminate; intros _ Hm; cbn [step];
    unfold loadMore, observerCallback, mayTrigger, bind, skip.
  - destruct (current currentRequestPageRef w); [| contradiction].
    cbn [is_null]. now rewrite andb_false_r.
  - destruct (current observerRef w); [| reflexivity].
    destruct (current currentRequestPageRef w); [| contradiction].
    cbn [is_null]. now rewrite !andb_false_r.
Qed.

(** Two triggers in a row, with no render in between, start at most one
    request: either the first one did nothing, or the second one does
    nothing. *)
Theorem second_trigger_is_ignored (ev1 ev2 : Event (T:=T)) (w : World T) :
  isTrigger ev1 = true -> isTrigger ev2 = true ->
  step cfg ev1 w = w \/ step cfg ev2 (step cfg ev1 w) = step cfg ev1 w.
Proof.
  intros H1 H2.
  destruct (trigger_cases ev1 w H1) as [H | (p & _ & H)]; [now left |].
  right. apply trigger_blocked; [exact H2 |].
  rewrite H, beginRequest_eq. discriminate.
Qed.

(** The debounce timer of the scroll handler, when it fires, starts the
    load of the page after the one it captured if the document is
    scrolled to within [threshold] of its end and the refs allow a
    trigger; otherwise it only goes away. *)
Theorem scroll_timer_loads_near_the_end (w : World T) (id : nat)
    (delay capturedPage : Z) (tms : list Timer) :
  timers w = tms ++
    [{| t_id := id; t_delay := delay;
        t_callback := ScrollTimer capturedPage |}] ->
  Forall (fun t => (t_id t < id)%nat) tms ->
  let w' := step cfg (Fire id) w in
  (nearEnd cfg (document w) && mayTrigger w = false ->
   w' = with_timers tms w) /\
  (nearEnd cfg (document w) && mayTrigger w = true ->
   timers w' = tms /\
   trace w' = trace w ++
     [CallFetch (capturedPage + 1) (length (signals w)) 0] /\
   current currentRequestPageRef w' = Some (capturedPage + 1)).
Proof.
  intros Ht Hlt w'. subst w'.
  rewrite (fire_parked cfg id _ tms w Ht) by trivial.
  unfold runCallback, scrollTimer, bind, nearEnd. tidy.
  change (mayTrigger (with_timers tms w)) with (mayTrigger w).
  split; intros Hc; rewrite Hc; [reflexivity |].
  apply andb_prop in Hc as [_ Hc].
  rewrite fetchWithRetry_passes, beginRequest_eq
    by now apply mayTrigger_passes.
  unfold current. tidy. auto.
Qed.

End Triggers.

(** ** Scrolling, resetting and settling, twice *)

Section Twice.

Context {T : Type}.
Variable cfg : Config.

Lemma find_new_timer (tms : list Timer) (t : Timer) :
  Forall (fun t' => (t_id t' < t_id t)%nat) tms ->
  find_timer (t_id t) (tms ++ [t]) = Some t.
Proof.
  intros H. unfold find_timer. apply find_last.
  - now apply older_timers.
  - apply Nat.eqb_refl.
Qed.

Lemma find_timer_none (id : nat) (tms : list Timer) :
  Forall (fun t => t_id t <> id) tms -> find_timer id tms = None.
Proof.
  unfold find_timer. induction 1 as [|t tms Ht _ IH]; [reflexivity |].
  cbn. apply Nat.eqb_neq in Ht. now rewrite Ht.
Qed.

(** What one scroll event does in a mounted, enabled component: the
    timer held in [debounceTimerRef] is cleared, a new one is set for
    [debounceMs] and recorded. *)
Lemma scroll_eq (doc : Metrics) (w : World T) :
  mounted w = true -> enabled cfg = true ->
  step cfg (Scroll doc) w =
  MkWorld (view w) (st w)
    (set_debounceTimerRef (Some (nextTimer w)) (refs w))
    (signals w) (inflight w)
    (afterClear w ++
       [{| t_id := nextTimer w; t_delay := debounceMs cfg;
           t_callback := ScrollTimer (currentPage (view w)) |}])
    (S (nextTimer w)) (mounted w) doc
    (trace w ++ [CallSetTimeout (nextTimer w) (debounceMs cfg)]).
Proof.
  intros Hm Hen.
  assert (Hc : mounted w && enabled cfg = true) by now rewrite Hm, Hen.
  cbn [step]. unfold seq, bind.
  change (mounted (with_document doc w)) with (mounted w). rewrite Hc.
  unfold when, debouncedScrollHandler, setTimeout, clearTimeout, emit,
    assign, afterClear, current, seq, bind, skip.
  destruct (debounceTimerRef (refs w)) as [id|] eqn:Hd; tidy; rewrite Hd;
    [| reflexivity].
  destruct (truthy (Some id)); reflexivity.
Qed.

(** Debouncing: of two scroll events in a row only the timer of the
    second stays pending; the first is cleared before it could fire, and
    nothing is fetched by scrolling alone. *)
Theorem second_scroll_replaces_timer (w : World T) (doc1 doc2 : Metrics) :
  wellFormed w -> mounted w = true -> enabled cfg = true ->
  let w2 := step cfg (Scroll doc2) (step cfg (Scroll doc1) w) in
  find_timer (nextTimer w) (timers (step cfg (Scroll doc1) w)) =
    Some {| t_id := nextTimer w; t_delay := debounceMs cfg;
            t_callback := ScrollTimer (currentPage (view w)) |} /\
  find_timer (nextTimer w) (timers w2) = None /\
  find_timer (S (nextTimer w)) (timers w2) =
    Some {| t_id := S (nextTimer w); t_delay := debounceMs cfg;
            t_callback := ScrollTimer (currentPage (view w)) |} /\
  fetches w2 = fetches w.
Proof.
  intros Hwf Hm Hen w2. subst w2.
  destruct (wellFormed_older w Hwf) as [_ Htm].
  pose proof (afterClear_older w _ Htm) as Hclr.
  pose proof (wf_nextTimer w Hwf) as Hpos.
  rewrite (scroll_eq doc1 w Hm Hen).
  set (w1 := MkWorld _ _ _ _ _ _ _ _ _ _).
  rewrite (scroll_eq doc2 w1 Hm Hen).
  assert (Hw1 : afterClear w1 = afterClear w).
  { unfold afterClear, current. subst w1. tidy.
    replace (truthy (Some (nextTimer w))) with true
      by (symmetry; cbn; apply negb_true_iff, Nat.eqb_neq; lia).
    apply (filter_last (fun t => Nat.eqb (t_id t) (nextTimer w))).
    - now apply older_timers.
    - apply Nat.eqb_refl. }
  rewrite Hw1. subst w1. tidy. split; [| split; [| split]].
  - now apply (find_new_timer (afterClear w)
      {| t_id := nextTimer w; t_delay := debounceMs cfg;
         t_callback := ScrollTimer (currentPage (view w)) |}).
  - apply find_timer_none. apply Forall_app. split.
    + revert Hclr. apply List.Forall_impl. intros t Ht. lia.
    + repeat constructor. cbn. lia.
  - apply (find_new_timer (afterClear w)
      {| t_id := S (nextTimer w); t_delay := debounceMs cfg;
         t_callback := ScrollTimer (currentPage (view w)) |}).
    revert Hclr. apply List.Forall_impl. intros t Ht. cbn. lia.
  - unfold fetches. tidy. rewrite !List.filter_app, !length_app. cbn. lia.
Qed.

Lemma abortIn_twice (c : option nat) (heap : list bool) :
  abortIn c (abortIn c heap) = abortIn c heap.
Proof. destruct c; cbn; [apply list_insert_insert_eq | reflexivity]. Qed.

Lemma filter_twice {A} (f : A -> bool) (l : list A) :
  List.filter f (List.filter f l) = List.filter f l.
Proof.
  induction l as [|x l IH]; [reflexivity |].
  cbn. destruct (f x) eqn:E; cbn; rewrite ?E, IH; reflexivity.
Qed.

(** [reset()] is idempotent: a second call in a row changes nothing. *)
Theorem reset_twice (w : World T) :
  reset cfg (reset cfg w) = reset cfg w.
Proof.
  rewrite (reset_eq cfg (reset cfg w)), reset_eq. unfold current. tidy.
  rewrite abortIn_twice. f_equal.
  destruct (debounceTimerRef (refs w)) as [id|]; [| reflexivity].
  destruct (truthy (Some id)); [apply filter_twice | reflexivity].
Qed.



(** A rejected fetch never touches what has been loaded: the items,
    [hasMore], [currentPage] and [totalCount] are as before, whether the
    rejection is retried or final. *)
Theorem rejection_keeps_loaded_pages (w : World T) (signal : nat)
    (err : Thrown) :
  let w' := step cfg (Settle signal (Rejected err)) w in
  data (st w') = data (st w) /\ hasMore (st w') = hasMore (st w) /\
  currentPage (st w') = currentPage (st w) /\
  totalCount (st w') = totalCount (st w).
Proof.
  intros w'. subst w'.
  destruct (find_request signal (inflight w)) as [rq|] eqn:Hf;
    [| now rewrite settle_missing].
  rewrite (settle_found cfg _ _ _ _ Hf).
  set (w1 := with_inflight _ w).
  change (st w) with (st w1).
  destruct (aborted (r_signal rq) w1) eqn:Ha;
    [now rewrite resume_aborted |].
  destruct (Z.ltb_spec (Z.of_nat (r_retryCount rq)) (retryAttempts cfg));
    [now rewrite resume_retry | now rewrite resume_exhausted].
Qed.

End Twice.

(** ** Page after page *)

Section Browsing.

Context {T : Type}.
Variable cfg : Config.

Lemma enabledRef_fetchWithRetry p i n :
  keeps (T:=T) (current enabledRef) (fetchWithRetry p i n).
Proof.
  unfold fetchWithRetry, beginRequest, newAbortController, awaitFetchData,
    abortCurrent, setLoading, setError, setIsRetrying. frame.
Qed.

Lemma mounted_run (evs : list (Event (T:=T))) (w : World T) :
  mounted w = true -> mounted (run cfg evs w) = true.
Proof.
  revert w. induction evs as [|ev evs IH]; intros w Hw; [exact Hw |].
  cbn [run]. unfold seq. apply IH. now apply mounted_step.
Qed.

(** The last round of a load that resolves, seen from the refs. *)
Lemma resolved_round_refs fn result rq id s rqs tms tr (w : World T) :
  awaiting rq id s rqs tms tr w ->
  current initialLoadRef w = true ->
  let w' := run cfg (lastRound fn (r_signal rq) (Resolved result)) w in
  current enabledRef w' = true /\ current initialLoadRef w' = true /\
  length (signals w') = S (r_signal rq) /\ nextTimer w' = id.
Proof.
  intros Haw Hlatch w'. subst w'. unfold lastRound, run, seq, skip.
  change (step cfg (@Render T false fn)) with (render (T:=T) cfg false fn).
  destruct (awaiting_render cfg fn _ _ _ _ _ _ _ Haw) as [Haw1 Hl1].
  rewrite Hlatch in Hl1.
  destruct (awaiting_resolved cfg result _ _ _ _ _ _ _ Haw1)
    as (_ & _ & _ & _ & Hm & _ & Hl2).
  rewrite Hl1 in Hl2.
  destruct (render_quiet cfg fn _ Hm (or_introl Hl2))
    as (r & -> & _ & He & _ & _ & _ & Hl).
  destruct Haw1 as [_ He1 Hh1 Hlive _ Hin Hold _ _ Hnt _ _ _].
  unfold current in *. tidy. rewrite He, Hl.
  rewrite (settle_parked cfg _ _ rq rqs) in * by trivial.
  rewrite resume_resolved in * by exact Hlive.
  tidy. destruct (r_isInitial rq); auto.
Qed.

(** One page: [loadMore()] in a ready component with more to load fetches
    the page after [currentPage]; when it resolves the items are appended
    and the component is ready again. *)
Lemma page_round fn (page : Page T) (w : World T) :
  enabled cfg = true -> ready w -> hasMore (view w) = true ->
  let w' :=
    run cfg [LoadMore; Render false fn;
             Settle (length (signals w)) (Resolved page); Render false fn]
      w in
  ready w' /\
  view w' =
    MkSnapshot (data (view w) ++ p_data page) false None (p_hasMore page)
      false (currentPage (view w) + 1)
      (match p_total page with
       | Some total => Some total
       | None => totalCount (view w)
       end) /\
  trace w' = trace w ++
    CallFetch (currentPage (view w) + 1) (length (signals w)) 0 ::
    (if onSuccess cfg
     then [CallOnSuccess (p_data page) (currentPage (view w) + 1)]
     else []) /\
  length (signals w') = S (length (signals w)).
Proof.
  intros Hen [Hidle He Hmk Hst] Hmore w'.
  pose proof Hidle as [Hwf Hm Hlatch Hv].
  assert (Hp : passes (currentPage (view w) + 1) false w).
  { unfold passes. rewrite He, Hmk.
    rewrite (wf_sync w Hwf Hm), Hv. auto. }
  assert (Hgo : step cfg LoadMore w =
                fetchWithRetry (currentPage (view w) + 1) false 0 w).
  { cbn [step]. unfold loadMore, bind.
    now rewrite Hv, Hmore, Hen, Hmk. }
  subst w'.
  change [LoadMore; Render false fn;
          Settle (length (signals w)) (Resolved page); Render false fn]
    with ([@LoadMore T] ++
          lastRound fn (length (signals w)) (Resolved page)).
  rewrite run_app.
  change (run cfg [@LoadMore T] w) with (step cfg LoadMore w). rewrite Hgo.
  destruct (load_begins (currentPage (view w) + 1) false w Hidle Hp)
    as [Haw Hl].
  set (w0 := fetchWithRetry _ _ _ w) in *.
  destruct (resolved_round cfg fn page _ _ _ _ _ _ _ Haw Hl)
    as (Hv' & Hst' & Htr' & _ & _ & Hmk').
  destruct (resolved_round_refs fn page _ _ _ _ _ _ _ Haw Hl)
    as (He' & Hl' & Hlen & _).
  cbn [r_signal r_page r_isInitial] in *.
  set (w1 := run cfg _ w0) in *.
  rewrite Hst in Hv', Hst'.
  split; [| split; [exact Hv' | split; [| exact Hlen]]].
  - constructor; trivial; [| congruence].
    constructor; trivial.
    + apply wellFormed_run. rewrite <- Hgo. now apply preserves_step.
    + apply mounted_run. rewrite <- Hgo. now apply mounted_step.
    + now rewrite Hv'.
  - rewrite Htr'. now rewrite <- List.app_assoc.
Qed.

(** Page after page, by induction on the pages that arrive. *)
Lemma browse_rounds (fn : bool) (pages : list (Page T)) :
  forall w : World T,
  enabled cfg = true -> ready w -> hasMore (view w) = true ->
  Forall (fun page => p_hasMore page = true) (removelast pages) ->
  let w' := run cfg (browse fn (length (signals w)) pages) w in
  ready w' /\
  data (view w') = data (view w) ++ concat (map p_data pages) /\
  currentPage (view w') = currentPage (view w) + Z.of_nat (length pages) /\
  hasMore (view w') = List.last (map p_hasMore pages) true /\
  fetches w' = (fetches w + length pages)%nat.
Proof.
  induction pages as [|page rest IH]; intros w Hen Hr Hmore Hall w'.
  - subst w'. cbn. rewrite app_nil_r, Z.add_0_r, Nat.add_0_r. auto.
  - subst w'. cbn [browse]. rewrite run_app.
    destruct (page_round fn page w Hen Hr Hmore) as (Hr1 & Hv1 & Htr1 & Hlen).
    set (w1 := run cfg _ w) in *.
    assert (Hf1 : fetches w1 = S (fetches w)).
    { rewrite (fetches_app w w1 _ Htr1). destruct (onSuccess cfg); cbn; lia. }
    destruct rest as [|page2 rest].
    + cbn [browse run map concat List.last length]. unfold skip.
      rewrite Hv1, Hf1. cbn [data currentPage hasMore].
      rewrite app_nil_r. split; [exact Hr1 | repeat split; lia].
    + assert (Hmore1 : hasMore (view w1) = true).
      { rewrite Hv1. cbn [hasMore]. now inversion Hall. }
      assert (Hall1 : Forall (fun page => p_hasMore page = true)
                        (removelast (page2 :: rest)))
        by now inversion Hall.
      rewrite <- Hlen.
      destruct (IH w1 Hen Hr1 Hmore1 Hall1) as (Hr2 & Hd & Hc & Hh & Hf).
      split; [exact Hr2 |].
      rewrite Hd, Hc, Hh, Hf, Hv1, Hf1. cbn [data currentPage].
      split; [now rewrite <- List.app_assoc |].
      split; [cbn [length]; lia |].
      split; [reflexivity | cbn [length]; lia].
Qed.

(** Infinite scrolling shows the pages in order: starting ready with more
    to load, if every page but possibly the last reports [hasMore], then
    after the pages have arrived the items are the previous items followed
    by the items of each page in turn, [currentPage] has advanced by their
    number, and [fetchData] was called once per page. *)
Theorem browsing_appends_pages_in_order (fn : bool) (pages : list (Page T))
    (w : World T) :
  enabled cfg = true -> ready w -> hasMore (view w) = true ->
  Forall (fun page => p_hasMore page = true) (removelast pages) ->
  let w' := run cfg (browse fn (length (signals w)) pages) w in
  ready w' /\
  data (view w') = data (view w) ++ concat (map p_data pages) /\
  currentPage (view w') = currentPage (view w) + Z.of_nat (length pages) /\
  hasMore (view w') = List.last (map p_hasMore pages) true /\
  fetches w' = (fetches w + length pages)%nat.
Proof.
  intros Hen Hr Hmore Hall. now apply browse_rounds.
Qed.

(** When the last page that arrived reported no more pages, [loadMore()]
    does nothing; otherwise it asks for the page after the last one. *)
Theorem browsing_stops_at_the_end (fn : bool) (pages : list (Page T))
    (w : World T) :
  enabled cfg = true -> ready w -> hasMore (view w) = true ->
  Forall (fun page => p_hasMore page = true) (removelast pages) ->
  let w' := run cfg (browse fn (length (signals w)) pages) w in
  (List.last (map p_hasMore pages) true = false -> step cfg LoadMore w' = w') /\
  (List.last (map p_hasMore pages) true = true ->
   trace (step cfg LoadMore w') = trace w' ++
     [CallFetch (currentPage (view w) + Z.of_nat (length pages) + 1)
        (length (signals w')) 0]).
Proof.
  intros Hen Hr Hmore Hall w'.
  destruct (browse_rounds fn pages w Hen Hr Hmore Hall)
    as ([[Hwf Hm Hlatch Hv] He Hmk Hst] & _ & Hc & Hh & _).
  fold w' in Hwf, Hm, Hlatch, Hv, He, Hmk, Hst, Hc, Hh.
  split; intros Hlast; rewrite Hlast in Hh.
  - cbn [step]. unfold loadMore, bind. rewrite Hv, Hh. reflexivity.
  - cbn [step]. unfold loadMore, bind.
    rewrite Hv, Hh, Hen, Hmk, Hc. cbn [negb andb is_null].
    rewrite fetchWithRetry_passes, beginRequest_eq; [reflexivity |].
    unfold passes. rewrite He, Hmk, (wf_sync w' Hwf Hm), Hv. auto.
Qed.

End Browsing.

(** ** Mounting, retrying, and what the page shows *)

Section Mounting.

Context {T : Type}.
Variable cfg : Config.

(** The initial load is started once: after mounting an enabled hook, any
    number of further renders (with [resetDependencies] unchanged) leave
    the one call of [fetchData] for the initial page in flight. *)
Theorem rerenders_do_not_refetch (depsChanged fn : bool) (fns : list bool) :
  enabled cfg = true ->
  let w := run cfg (Render depsChanged fn :: map (Render false) fns)
             (initialWorld (T:=T) cfg) in
  trace w = [CallFetch (initialPage cfg) 0 0] /\
  inflight w = [{| r_signal := 0; r_page := initialPage cfg;
                   r_isInitial := true; r_retryCount := 0 |}] /\
  current isInitialLoadingRef w = true /\ current initialLoadRef w = true.
Proof.
  intros Hen w. subst w. cbn [run]. unfold seq.
  change (step cfg (Render depsChanged fn) (initialWorld cfg))
    with (render cfg depsChanged fn (initialWorld (T:=T) cfg)).
  pose proof (mount_awaiting (T:=T) cfg depsChanged fn Hen) as Haw.
  assert (Hrefs :
    current isInitialLoadingRef
      (render cfg depsChanged fn (initialWorld (T:=T) cfg)) = true /\
    current initialLoadRef
      (render cfg depsChanged fn (initialWorld (T:=T) cfg)) = true).
  { destruct cfg as [ip th en [|rd] oe os db ra rdl];
      cbn in Hen; subst en; split; reflexivity. }
  revert Haw Hrefs.
  generalize (render cfg depsChanged fn (initialWorld (T:=T) cfg)).
  induction fns as [|f fns IH]; intros w Haw [Hi Hl].
  - cbn [map run]. unfold skip.
    destruct Haw as [_ _ _ _ _ Hin _ _ _ _ _ _ Htr]. auto.
  - cbn [map run]. unfold seq.
    change (step cfg (Render false f) w) with (render cfg false f w).
    destruct (awaiting_render cfg f _ _ _ _ _ _ _ Haw) as [Haw1 Hl1].
    apply IH; [exact Haw1 |]. split; [| congruence].
    destruct Haw as [Hm _ _ _ _ _ _ _ _ _ _ Hst _].
    destruct (render_quiet cfg f w Hm) as (r & -> & _ & _ & _ & _ & Hr & _).
    { right. now rewrite Hst. }
    unfold current in *. tidy. congruence.
Qed.

(** [retry()] fetches [currentPage], the last page that loaded.  With the
    error of a later page on screen, the fetch it starts is for the page
    already shown, and when it resolves its items are appended after the
    items on screen while [currentPage] stays where it was. *)
Theorem retry_appends_current_page_again (w : World T) (e : Error)
    (fn : bool) (result : Page T) :
  ready w -> error (view w) = Some e ->
  let w' :=
    run cfg (RetryNow ::
             lastRound fn (length (signals w)) (Resolved result)) w in
  requested w' = requested w ++ [currentPage (view w)] /\
  data (view w') = data (view w) ++ p_data result /\
  currentPage (view w') = currentPage (view w) /\
  error (view w') = None.
Proof.
  intros [Hidle He Hmk Hst] Herr w'.
  pose proof Hidle as [Hwf Hm Hlatch Hv].
  assert (Hp : passes (currentPage (view w)) false w).
  { unfold passes. rewrite He, Hmk, (wf_sync w Hwf Hm), Hv. auto. }
  assert (Hgo : step cfg RetryNow w =
                fetchWithRetry (currentPage (view w)) false 0 w).
  { cbn [step]. unfold retry, bind. now rewrite Herr. }
  subst w'. cbn [run]. unfold seq. rewrite Hgo.
  destruct (load_begins (currentPage (view w)) false w Hidle Hp)
    as [Haw Hl].
  destruct (resolved_round cfg fn result _ _ _ _ _ _ _ Haw Hl)
    as (Hv' & _ & Htr' & _).
  cbn [r_signal r_page r_isInitial] in *.
  rewrite Hst in Hv'. rewrite Hv'. cbn [data currentPage error].
  split; [| auto]. unfold requested. rewrite Htr', !flat_map_app. cbn.
  destruct (onSuccess cfg); cbn; now rewrite ?app_nil_r.
Qed.

(** Between two attempts of a load that found no items on screen (the
    initial load), the rendered state is that of an empty result: not
    loading, no error, no items.  [App] then shows its empty state and
    neither the skeleton nor the error panel. *)
Theorem backoff_of_initial_load_shows_empty_state (w : World T)
    (rq : Request) (id : nat) (s : Snapshot T) (rqs : list Request)
    (tms : list Timer) (tr : list (Call T)) :
  backingOff cfg rq id s rqs tms tr w ->
  view w = st w -> data s = [] ->
  showsEmptyState (view w) = true /\
  showsInitialSkeleton (view w) = false /\
  showsErrorState (view w) = false.
Proof.
  intros [_ _ _ _ _ _ _ _ _ _ _ _ _ _ Hst _] Hv Hd.
  rewrite Hv, Hst.
  unfold showsEmptyState, showsInitialSkeleton, showsErrorState. tidy.
  now rewrite Hd.
Qed.

End Mounting.

Section Pages.

Context {T : Type}.

(** [App] never renders a blank page: for every snapshot the empty state,
    the error panel, the product grid or the initial skeleton is shown.
    The empty state excludes the other three, the error panel is hidden
    while loading, and the two loading indicators exclude each other. *)
Theorem some_panel_is_shown (v : Snapshot T) :
  showsEmptyState v || showsErrorState v || showsGrid v ||
    showsInitialSkeleton v = true /\
  showsEmptyState v &&
    (showsErrorState v || showsGrid v || showsInitialSkeleton v) = false /\
  loading v && showsErrorState v = false /\
  showsInitialSkeleton v && showsLoadMoreSpinner v = false.
Proof.
  unfold showsEmptyState, showsErrorState, showsGrid, showsInitialSkeleton,
    showsLoadMoreSpinner.
  destruct (loading v), (error v), (data v); cbn; repeat split.
Qed.

(** [fetchProducts] reports [hasMore] exactly when the catalog has items
    beyond the page it fetched, provided the server sends as many items of
    the page as exist: after the last item no further page is asked
    for, and a full last page does not cost an extra empty fetch. *)
Theorem fetchProducts_hasMore (page : Z) (response : ApiResponse T) :
  0 <= page ->
  Z.of_nat (length (a_products response)) =
    Z.min limit (Z.max 0 (a_total response - page * limit)) ->
  p_hasMore (fetchProducts page response) =
    ((page + 1) * limit <? a_total response) /\
  p_data (fetchProducts page response) = a_products response /\
  p_total (fetchProducts page response) = Some (a_total response).
Proof.
  intros Hp Hlen. unfold fetchProducts, limit in *. cbn.
  split; [| split; reflexivity]. rewrite Hlen.
  replace ((page + 1) * 6) with (page * 6 + 6) by lia.
  destruct (Z.ltb_spec (page * 6 + 6) (a_total response)) as [Hlt | Hge].
  - rewrite andb_true_r. apply Z.eqb_eq. lia.
  - apply andb_false_r.
Qed.

End Pages.

Lemma handle_exclusive (actions : list AppAction) (s : AppState) :
  searchInput s = EmptyString \/ selectedCategory s = EmptyString ->
  let s' := fold_left (fun s a => handle a s) actions s in
  searchInput s' = EmptyString \/ selectedCategory s' = EmptyString.
Proof.
  revert s. induction actions as [|a actions IH]; intros s Hs; [exact Hs |].
  cbn [fold_left]. apply IH. destruct a; cbn; auto.
Qed.

(** In [App] the search box and the category filter are never both set:
    each handler that sets one clears the other. *)
Theorem search_and_category_exclusive (actions : list AppAction) :
  let s := fold_left (fun s a => handle a s) actions initialApp in
  searchInput s = EmptyString \/ selectedCategory s = EmptyString.
Proof.
  apply handle_exclusive. now left.
Qed.

(** A selected category is what gets fetched: whatever the user did
    before, once the debounced [searchQuery] has caught up with
    [searchInput], a non-empty [selectedCategory] sends [fetchProducts] to
    the category URL, with [limit = 6] and [skip = page * 6]; the search
    URL, which the code tries first, cannot hide it. *)
Theorem selected_category_is_fetched (actions : list AppAction)
    (searchQuery : string) (page : Z) :
  let s := fold_left (fun s a => handle a s) actions initialApp in
  searchQuery = searchInput s ->
  nonEmpty (selectedCategory s) = true ->
  endpoint searchQuery (selectedCategory s) page =
    CategoryProducts (selectedCategory s) 6 (page * 6).
Proof.
  intros s -> Hc.
  destruct (handle_exclusive actions initialApp (or_introl eq_refl))
    as [Hs | Hs]; fold s in Hs.
  - unfold endpoint. now rewrite Hs, Hc.
  - rewrite Hs in Hc. discriminate.
Qed.

(** ** The further statements at concrete components *)

Lemma backoffWorld_backingOff :
  backingOff appConfig
    {| r_signal := 0; r_page := 0; r_isInitial := true; r_retryCount := 0 |}
    1 (st backoffWorld) [] [] (trace backoffWorld) backoffWorld.
Proof.
  constructor; try (vm_compute; reflexivity);
    try (intros _; vm_compute; reflexivity); apply List.Forall_nil.
Qed.

Lemma browsingWorld_ready : ready (browsingWorld appConfig).
Proof.
  constructor; try (vm_compute; reflexivity).
  apply browsingWorld_idle. now left.
Qed.

Lemma failedWorld_ready : ready failedWorld.
Proof.
  constructor; try (vm_compute; reflexivity).
  constructor; try (vm_compute; reflexivity). apply failedWorld_wellFormed.
Qed.

Lemma reachable_one_live_request_witness :
  let evs := [AttachSentinel true; Render false true; Render false true] in
  let rq :=
    {| r_signal := 0; r_page := 0; r_isInitial := true; r_retryCount := 0 |} in
  let w := run appConfig evs (initialWorld (T:=nat) appConfig) in
  In rq (inflight w) /\ aborted (r_signal rq) w = false /\
  current abortControllerRef w = Some (r_signal rq).
Proof.
  intros evs rq w.
  assert (H1 : In rq (inflight w)) by (vm_compute; left; reflexivity).
  assert (H2 : aborted (r_signal rq) w = false) by (vm_compute; reflexivity).
  refine (conj H1 (conj H2 _)).
  exact (proj2 (reachable_one_live_request appConfig evs rq rq H1 H1 H2 H2)).
Defined.

Lemma disabled_hook_never_fetches_witness :
  enabled disabledConfig = false /\
  fetches
    (run disabledConfig
       [Render false true; LoadMore; Scroll atBottom; Intersect true;
        Refresh; Fire 1%nat]
       (initialWorld (T:=nat) disabledConfig)) = 0%nat.
Proof.
  assert (H : enabled disabledConfig = false) by (vm_compute; reflexivity).
  refine (conj H _).
  exact (disabled_hook_never_fetches disabledConfig _ H).
Defined.

Lemma hidden_tab_fetches_nothing_witness :
  let w := browsingWorld appConfig in
  let evs := [LoadMore; Intersect true; Render false true] in
  mounted w = true /\
  Forall (fun ev => forall hidden, ev <> VisibilityChange hidden) evs /\
  fetches (run appConfig evs (step appConfig (VisibilityChange true) w)) =
    fetches w.
Proof.
  intros w evs.
  assert (H1 : mounted w = true) by (vm_compute; reflexivity).
  assert (H2 : Forall (fun ev : Event (T:=nat) =>
                         forall hidden, ev <> VisibilityChange hidden) evs)
    by (repeat constructor; intros hidden; discriminate).
  refine (conj H1 (conj H2 _)).
  exact (proj1 (hidden_tab_fetches_nothing appConfig w evs H1 H2)).
Defined.

Lemma retry_due_while_hidden_is_dropped_witness :
  let rq :=
    {| r_signal := 0; r_page := 0; r_isInitial := true; r_retryCount := 0 |} in
  backingOff appConfig rq 1 (st backoffWorld) [] [] (trace backoffWorld)
    backoffWorld /\
  trace (run appConfig [VisibilityChange true; Fire 1%nat] backoffWorld) =
    trace backoffWorld.
Proof.
  intros rq.
  pose proof backoffWorld_backingOff as H.
  refine (conj H _).
  exact (proj1 (proj2 (proj2
    (retry_due_while_hidden_is_dropped appConfig backoffWorld rq 1%nat
       (st backoffWorld) [] [] (trace backoffWorld) H)))).
Defined.

Lemma failing_fetch_exhausts_retries_witness :
  let w := browsingWorld twoRetries in
  let errs := [networkDown; networkDown] in
  idle w /\ passes 1 false w /\
  retryAttempts twoRetries = Z.of_nat (length errs) /\
  fetches
    (run twoRetries
       (retryRounds true (length (signals w)) (nextTimer w) errs ++
        lastRound true (length (signals w) + length errs)
          (Rejected networkDown))
       (fetchWithRetry 1 false 0 w)) = (fetches w + length errs + 1)%nat.
Proof.
  intros w errs.
  assert (H1 : idle w) by (apply browsingWorld_idle; now right).
  assert (H2 : passes 1 false w) by (vm_compute; repeat split).
  assert (H3 : retryAttempts twoRetries = Z.of_nat (length errs))
    by (vm_compute; reflexivity).
  refine (conj H1 (conj H2 (conj H3 _))).
  exact (proj1
    (failing_fetch_exhausts_retries twoRetries w 1 false true errs
       networkDown H1 H2 H3)).
Defined.

Lemma second_trigger_is_ignored_witness :
  let w := browsingWorld appConfig in
  isTrigger (T:=nat) LoadMore = true /\
  isTrigger (T:=nat) (Intersect true) = true /\
  (step appConfig LoadMore w = w \/
   step appConfig (Intersect true) (step appConfig LoadMore w) =
     step appConfig LoadMore w).
Proof.
  intros w.
  assert (H1 : isTrigger (T:=nat) LoadMore = true) by (vm_compute; reflexivity).
  assert (H2 : isTrigger (T:=nat) (Intersect true) = true) by (vm_compute; reflexivity).
  refine (conj H1 (conj H2 _)).
  exact (second_trigger_is_ignored appConfig LoadMore (Intersect true) w
           H1 H2).
Defined.

Lemma scroll_timer_loads_near_the_end_witness :
  timers scrolledWorld =
    [] ++ [{| t_id := 1; t_delay := 300; t_callback := ScrollTimer 0 |}] /\
  Forall (fun t => (t_id t < 1)%nat) [] /\
  nearEnd appConfig (document scrolledWorld) && mayTrigger scrolledWorld =
    true /\
  trace (step appConfig (Fire 1%nat) scrolledWorld) =
    trace scrolledWorld ++ [CallFetch (0 + 1) (length (signals scrolledWorld)) 0].
Proof.
  assert (H1 : timers scrolledWorld =
    [] ++ [{| t_id := 1; t_delay := 300; t_callback := ScrollTimer 0 |}])
    by (vm_compute; reflexivity).
  assert (H2 : Forall (fun t : Timer => (t_id t < 1)%nat) [])
    by apply List.Forall_nil.
  assert (H3 : nearEnd appConfig (document scrolledWorld) &&
               mayTrigger scrolledWorld = true) by (vm_compute; reflexivity).
  refine (conj H1 (conj H2 (conj H3 _))).
  exact (proj1 (proj2 (proj2
    (scroll_timer_loads_near_the_end appConfig scrolledWorld 1%nat 300 0 []
       H1 H2) H3))).
Defined.

Lemma second_scroll_replaces_timer_witness :
  let w := browsingWorld appConfig in
  wellFormed w /\ mounted w = true /\ enabled appConfig = true /\
  find_timer (nextTimer w)
    (timers (step appConfig (Scroll atBottom)
               (step appConfig (Scroll atBottom) w))) = None.
Proof.
  intros w.
  assert (H1 : wellFormed w)
    by (apply idle_wf, browsingWorld_idle; now left).
  assert (H2 : mounted w = true) by (vm_compute; reflexivity).
  assert (H3 : enabled appConfig = true) by (vm_compute; reflexivity).
  refine (conj H1 (conj H2 (conj H3 _))).
  exact (proj1 (proj2
    (second_scroll_replaces_timer appConfig w atBottom atBottom H1 H2 H3))).
Defined.

Lemma browsing_appends_pages_in_order_witness :
  let w := browsingWorld appConfig in
  let pages := [secondPage; lastPage] in
  enabled appConfig = true /\ ready w /\ hasMore (view w) = true /\
  Forall (fun page => p_hasMore page = true) (removelast pages) /\
  data (view (run appConfig (browse true (length (signals w)) pages) w)) =
    data (view w) ++ concat (map p_data pages).
Proof.
  intros w pages.
  assert (H1 : enabled appConfig = true) by (vm_compute; reflexivity).
  pose proof browsingWorld_ready as H2.
  assert (H3 : hasMore (view w) = true) by (vm_compute; reflexivity).
  assert (H4 : Forall (fun page : Page nat => p_hasMore page = true)
                 (removelast pages))
    by (repeat constructor).
  refine (conj H1 (conj H2 (conj H3 (conj H4 _)))).
  exact (proj1 (proj2
    (browsing_appends_pages_in_order appConfig true pages w H1 H2 H3 H4))).
Defined.

Lemma browsing_stops_at_the_end_witness :
  let w := browsingWorld appConfig in
  let pages := [secondPage; lastPage] in
  enabled appConfig = true /\ ready w /\ hasMore (view w) = true /\
  Forall (fun page => p_hasMore page = true) (removelast pages) /\
  List.last (map p_hasMore pages) true = false /\
  step appConfig LoadMore
    (run appConfig (browse true (length (signals w)) pages) w) =
  run appConfig (browse true (length (signals w)) pages) w.
Proof.
  intros w pages.
  assert (H1 : enabled appConfig = true) by (vm_compute; reflexivity).
  pose proof browsingWorld_ready as H2.
  assert (H3 : hasMore (view w) = true) by (vm_compute; reflexivity).
  assert (H4 : Forall (fun page : Page nat => p_hasMore page = true)
                 (removelast pages))
    by (repeat constructor).
  assert (H5 : List.last (map p_hasMore pages) true = false) by (vm_compute; reflexivity).
  refine (conj H1 (conj H2 (conj H3 (conj H4 (conj H5 _))))).
  exact (proj1
    (browsing_stops_at_the_end appConfig true pages w H1 H2 H3 H4) H5).
Defined.

Lemma rerenders_do_not_refetch_witness :
  enabled appConfig = true /\
  trace (run appConfig
           (Render false true :: map (Render false) [true; false; true])
           (initialWorld (T:=nat) appConfig)) =
    [CallFetch (initialPage appConfig) 0 0].
Proof.
  assert (H : enabled appConfig = true) by (vm_compute; reflexivity).
  refine (conj H _).
  exact (proj1
    (rerenders_do_not_refetch (T:=nat) appConfig false true
       [true; false; true] H)).
Defined.

Lemma retry_appends_current_page_again_witness :
  let e := {| message := "Failed to fetch" |} in
  ready failedWorld /\ error (view failedWorld) = Some e /\
  data (view (run twoRetries
                (RetryNow ::
                 lastRound true (length (signals failedWorld))
                   (Resolved firstPage))
                failedWorld)) =
    data (view failedWorld) ++ p_data firstPage.
Proof.
  intros e.
  pose proof failedWorld_ready as H1.
  assert (H2 : error (view failedWorld) = Some e) by (vm_compute; reflexivity).
  refine (conj H1 (conj H2 _)).
  exact (proj1 (proj2
    (retry_appends_current_page_again twoRetries failedWorld e true
       firstPage H1 H2))).
Defined.

Lemma backoff_of_initial_load_shows_empty_state_witness :
  let rq :=
    {| r_signal := 0; r_page := 0; r_isInitial := true; r_retryCount := 0 |} in
  backingOff appConfig rq 1 (st backoffWorld) [] [] (trace backoffWorld)
    backoffWorld /\
  view backoffWorld = st backoffWorld /\ data (st backoffWorld) = [] /\
  showsEmptyState (view backoffWorld) = true.
Proof.
  intros rq.
  pose proof backoffWorld_backingOff as H1.
  assert (H2 : view backoffWorld = st backoffWorld) by (vm_compute; reflexivity).
  assert (H3 : data (st backoffWorld) = []) by (vm_compute; reflexivity).
  refine (conj H1 (conj H2 (conj H3 _))).
  exact (proj1
    (backoff_of_initial_load_shows_empty_state appConfig backoffWorld rq
       1%nat (st backoffWorld) [] [] (trace backoffWorld) H1 H2 H3)).
Defined.

Lemma fetchProducts_hasMore_witness :
  0 <= 1 /\
  Z.of_nat (length (a_products secondResponse)) =
    Z.min limit (Z.max 0 (a_total secondResponse - 1 * limit)) /\
  p_hasMore (fetchProducts 1 secondResponse) =
    ((1 + 1) * limit <? a_total secondResponse).
Proof.
  assert (H1 : 0 <= 1) by lia.
  assert (H2 : Z.of_nat (length (a_products secondResponse)) =
               Z.min limit (Z.max 0 (a_total secondResponse - 1 * limit)))
    by (vm_compute; reflexivity).
  refine (conj H1 (conj H2 _)).
  exact (proj1 (fetchProducts_hasMore 1 secondResponse H1 H2)).
Defined.

Lemma selected_category_is_fetched_witness :
  let actions := [HandleSearch "phone"; HandleCategoryChange "laptops"] in
  let s := fold_left (fun s a => handle a s) actions initialApp in
  EmptyString = searchInput s /\
  nonEmpty (selectedCategory s) = true /\
  endpoint EmptyString (selectedCategory s) 2 =
    CategoryProducts (selectedCategory s) 6 (2 * 6).
Proof.
  intros actions s.
  assert (H1 : EmptyString = searchInput s) by (vm_compute; reflexivity).
  assert (H2 : nonEmpty (selectedCategory s) = true) by (vm_compute; reflexivity).
  refine (conj H1 (conj H2 _)).
  exact (selected_category_is_fetched actions EmptyString 2 H1 H2).
Defined.
